(** * digisac_sender_text_v01.py: batch sender of an image with caption

    A shallow embedding of the script's functions and of its main loop, and
    the properties of the specification proved (or refuted) on them.

    Python strings are sequences of Unicode code points.  The three
    character-level services of the interpreter that the script relies on
    ([str.isdigit], the whitespace class of [str.strip] and [str.lower])
    are taken through the interface [Unicode]; the script's own logic is
    written out on top of it. *)

From Stdlib Require Import List NArith ZArith Bool String Ascii DecimalString Lia.

Import ListNotations.

Set Implicit Arguments.

(** ** Strings *)

Definition char := N.

Definition str := list char.

(** A literal of the script, as code points. *)
Definition lit (s : string) : str := map N_of_ascii (list_ascii_of_string s).

Definition chr_eqb (a b : char) : bool := N.eqb a b.

Fixpoint str_eqb (a b : str) : bool :=
  match a, b with
  | [], [] => true
  | x :: a', y :: b' => chr_eqb x y && str_eqb a' b'
  | _, _ => false
  end.

Fixpoint dropwhile (p : char -> bool) (s : str) : str :=
  match s with
  | [] => []
  | c :: s' => if p c then dropwhile p s' else s
  end.

(** [s.startswith(p)] *)
Fixpoint startswith (p s : str) : bool :=
  match p, s with
  | [], _ => true
  | _ :: _, [] => false
  | x :: p', y :: s' => chr_eqb x y && startswith p' s'
  end.

(** [s.endswith(p)] *)
Definition endswith (p s : str) : bool := startswith (rev p) (rev s).

Definition mem_chr (c : char) (cs : str) : bool := existsb (chr_eqb c) cs.

(** [s.lstrip(cs)] and [s.rstrip(cs)] with an explicit character set. *)
Definition lstrip_chars (cs s : str) : str := dropwhile (fun c => mem_chr c cs) s.

Definition rstrip_chars (cs s : str) : str := rev (lstrip_chars cs (rev s)).

(** ASCII reference behaviour of the character services. *)
Definition is_ascii (c : char) : bool := (c <? 128)%N.

Definition ascii_isdigit (c : char) : bool := ((48 <=? c) && (c <=? 57))%N.

Definition ascii_isspace (c : char) : bool :=
  (((9 <=? c) && (c <=? 13)) || ((28 <=? c) && (c <=? 32)))%N.

Definition ascii_lower (c : char) : char :=
  if ((65 <=? c) && (c <=? 90))%N then (c + 32)%N else c.

(** The interpreter's Unicode services.  The laws are the ones the proofs
    use: on ASCII the services are the familiar ones, no whitespace character
    is a digit, and lower-casing a string ending in ASCII characters ends in
    their lower-case forms. *)
Class Unicode : Type := {
  isdigit : char -> bool;
  isspace : char -> bool;
  lower : str -> str;
  isdigit_ascii : forall c, is_ascii c = true -> isdigit c = ascii_isdigit c;
  isspace_ascii : forall c, is_ascii c = true -> isspace c = ascii_isspace c;
  isspace_not_digit : forall c, isspace c = true -> isdigit c = false;
  lower_ascii : forall t, forallb is_ascii t = true -> lower t = map ascii_lower t;
  lower_ascii_tail : forall s t, forallb is_ascii t = true ->
    exists s', lower (s ++ t) = s' ++ map ascii_lower t
}.

Section Normalize.

Context {U : Unicode}.

(** [s.strip()] *)
Definition lstrip (s : str) : str := dropwhile isspace s.

Definition rstrip (s : str) : str := rev (dropwhile isspace (rev s)).

Definition strip (s : str) : str := rstrip (lstrip s).

(** [normalize_phone] (source lines 23-29).  The argument is always a
    [str] in the script, so the conversion on line 24 leaves it as it is. *)
Definition normalize_phone (raw : str) : str :=
  let s := strip raw in
  let s := filter isdigit s in
  let s := lstrip_chars (lit "0") s in
  if (10 <=? List.length s)%nat && negb (startswith (lit "55") s)
  then lit "55" ++ s
  else s.

(** The steps of [normalize_phone] by name, as the code takes them: a digit
    is a character [str.isdigit] accepts, a zero is the character 0. *)
Definition digits_only (raw : str) : str := filter isdigit raw.

Definition strip_leading_zeros (s : str) : str := dropwhile (chr_eqb 48%N) s.

Definition normalize_steps (raw : str) : str :=
  let d := strip_leading_zeros (digits_only raw) in
  if (10 <=? List.length d)%nat && negb (startswith (lit "55") d)
  then lit "55" ++ d
  else d.

End Normalize.

(** The normalizer as the specification words it (section 4.1): strip all
    non-digit characters, a digit being one of 0 to 9, the characters of a
    dialable number; strip the leading zeros; put 55 in front when at least
    ten digits remain and they do not already begin with 55. *)
Definition normalize (raw : str) : str :=
  let d := dropwhile (chr_eqb 48%N) (filter ascii_isdigit raw) in
  if (10 <=? List.length d)%nat && negb (startswith (lit "55") d)
  then lit "55" ++ d
  else d.

(** ** Integers, bytes and their renderings *)

(** [str(n)] for a Python [int]. *)
Definition str_of_int (z : Z) : str := lit (NilZero.string_of_int (Z.to_int z)).

Definition bytes := list N.

(** [len(b)] *)
Definition len_bytes (b : bytes) : Z := Z.of_nat (List.length b).

(** [s[:n]] *)
Definition prefix (n : nat) (s : str) : str := firstn n s.

(** [sep.join(parts)] *)
Fixpoint join (sep : str) (parts : list str) : str :=
  match parts with
  | [] => []
  | [p] => p
  | p :: rest => p ++ sep ++ join sep rest
  end.

(** [to_base64] (source lines 60-61): [base64.b64encode], standard
    alphabet with padding. *)
Definition b64_chr (n : N) : char :=
  (if n <? 26 then 65 + n
   else if n <? 52 then 97 + (n - 26)
   else if n <? 62 then 48 + (n - 52)
   else if n =? 62 then 43 else 47)%N.

Fixpoint to_base64 (b : bytes) : str :=
  match b with
  | [] => []
  | [x] => [b64_chr (x / 4); b64_chr ((x mod 4) * 16); 61; 61]%N
  | [x; y] =>
      [b64_chr (x / 4); b64_chr ((x mod 4) * 16 + y / 16);
       b64_chr ((y mod 16) * 4); 61]%N
  | x :: y :: z :: rest =>
      [b64_chr (x / 4); b64_chr ((x mod 4) * 16 + y / 16);
       b64_chr ((y mod 16) * 4 + z / 64); b64_chr (z mod 64)]%N
      ++ to_base64 rest
  end.

(** ** JSON values and [json.dumps] *)

(** What [r.json()] returns and what [json.dumps] accepts.  A float is kept
    as its [repr]; a dict is kept in insertion order. *)
#[local] Unset Elimination Schemes.

Inductive json : Type :=
| JNull
| JBool (b : bool)
| JInt (z : Z)
| JFloat (repr : str)
| JStr (s : str)
| JArr (items : list json)
| JObj (members : list (str * json)).

#[local] Set Elimination Schemes.

Definition DQUOTE : char := 34%N.

Definition BACKSLASH : char := 92%N.

Definition hex_digit (n : N) : char := (if n <? 10 then 48 + n else 87 + n)%N.

(** One character of a string literal, [ensure_ascii=False]: the quote, the
    backslash and the control characters are escaped, the rest is verbatim. *)
Definition json_escape_chr (c : char) : str :=
  if chr_eqb c DQUOTE then [BACKSLASH; DQUOTE]
  else if chr_eqb c BACKSLASH then [BACKSLASH; BACKSLASH]
  else if chr_eqb c 8%N then BACKSLASH :: lit "b"
  else if chr_eqb c 12%N then BACKSLASH :: lit "f"
  else if chr_eqb c 10%N then BACKSLASH :: lit "n"
  else if chr_eqb c 13%N then BACKSLASH :: lit "r"
  else if chr_eqb c 9%N then BACKSLASH :: lit "t"
  else if (c <? 32)%N
       then BACKSLASH :: lit "u00" ++ [hex_digit (c / 16); hex_digit (c mod 16)]%N
  else [c].

Definition json_quote (s : str) : str :=
  DQUOTE :: flat_map json_escape_chr s ++ [DQUOTE].

(** The text [json.dumps] writes for the float of a given [repr]: the
    [repr] itself, but for the three values that are no numbers of JSON. *)
Definition json_float (repr : str) : str :=
  if str_eqb repr (lit "nan") then lit "NaN"
  else if str_eqb repr (lit "inf") then lit "Infinity"
  else if str_eqb repr (lit "-inf") then lit "-Infinity"
  else repr.

(** [json.dumps] as called on source line 105: [ensure_ascii=False] and
    the separators comma and colon, without spaces. *)
Fixpoint json_dumps (v : json) : str :=
  match v with
  | JNull => lit "null"
  | JBool true => lit "true"
  | JBool false => lit "false"
  | JInt z => str_of_int z
  | JFloat r => json_float r
  | JStr s => json_quote s
  | JArr items => lit "[" ++ join (lit ",") (map json_dumps items) ++ lit "]"
  | JObj members =>
      lit "{"
      ++ join (lit ",")
           (map (fun kv => json_quote (fst kv) ++ lit ":" ++ json_dumps (snd kv))
                members)
      ++ lit "}"
  end.

(** ** The CSV writer *)

(** [csv.writer] in the default dialect: comma, double quote, minimal
    quoting, CR LF terminator. *)
Definition csv_special (c : char) : bool :=
  chr_eqb c 44%N || chr_eqb c DQUOTE || chr_eqb c 13%N || chr_eqb c 10%N.

Definition csv_field (f : str) : str :=
  if existsb csv_special f
  then DQUOTE :: flat_map (fun c => if chr_eqb c DQUOTE then [DQUOTE; DQUOTE] else [c]) f
              ++ [DQUOTE]
  else f.

Definition csv_line (fields : list str) : str :=
  join (lit ",") (map csv_field fields) ++ [13; 10]%N.

(** ** Text written as UTF-8 *)

(** A [str] may hold surrogate code points (a JSON reply decodes the escape
    for one into one); the strict UTF-8 encoder of a text file refuses
    them. *)
Definition is_surrogate (c : char) : bool := ((55296 <=? c) && (c <=? 57343))%N.

Fixpoint surrogate_run (s : str) : nat :=
  match s with
  | [] => 0
  | c :: s' => if is_surrogate c then S (surrogate_run s') else 0
  end.

Definition hex4 (c : char) : str :=
  [hex_digit (c / 4096); hex_digit ((c / 256) mod 16); hex_digit ((c / 16) mod 16);
   hex_digit (c mod 16)]%N.

(** [str(e)] of the [UnicodeEncodeError] for the first run of surrogates,
    which starts at index [start] with the character [c] and is [n] long. *)
Definition utf8_message (start : nat) (c : char) (n : nat) : str :=
  if (n =? 1)%nat
  then lit "'utf-8' codec can't encode character '" ++ [BACKSLASH] ++ lit "u" ++ hex4 c
       ++ lit "' in position " ++ str_of_int (Z.of_nat start)
       ++ lit ": surrogates not allowed"
  else lit "'utf-8' codec can't encode characters in position "
       ++ str_of_int (Z.of_nat start) ++ lit "-" ++ str_of_int (Z.of_nat (start + n - 1))
       ++ lit ": surrogates not allowed".

(** [s.encode("utf-8")] from index [start] on: [None] when it goes through,
    else the message of the error. *)
Fixpoint utf8_error_from (start : nat) (s : str) : option str :=
  match s with
  | [] => None
  | c :: s' =>
      if is_surrogate c then Some (utf8_message start c (surrogate_run s))
      else utf8_error_from (S start) s'
  end.

Definition utf8_error (s : str) : option str := utf8_error_from 0 s.

(** ** The outside world *)

(** What [r.json()] makes of a body: the value, or the message of the
    decoding error. *)
Inductive parsed : Type :=
| NotJson (msg : str)
| Json (v : json).

(** A [requests.Response], as far as the script looks at it. *)
Record Response : Type := {
  status_code : Z;
  reason : str;
  resp_url : str;
  content : bytes;              (* [r.content] *)
  resp_text : str;              (* [r.text] *)
  body_json : parsed            (* [r.json()] *)
}.

(** The exceptions that can reach the main loop, each with the message
    [str(e)] gives and, for the [requests] family, the [response]
    attribute. *)
Inductive exn : Type :=
| FileNotFoundError (msg : str)
| ValueError (msg : str)
| HTTPError (msg : str) (response : option Response)
| RequestError (msg : str) (response : option Response)
    (* the other exceptions of [requests]: a connection failure or a timeout
       has no response, too many redirects have the last one *)
| JSONDecodeError (msg : str)
| UnicodeEncodeError (msg : str)     (* the text layer of a file refuses a string *)
| OSError (msg : str).               (* a path that is there cannot be read *)

Definition exn_str (e : exn) : str :=
  match e with
  | FileNotFoundError m | ValueError m | HTTPError m _
  | RequestError m _ | JSONDecodeError m | UnicodeEncodeError m | OSError m => m
  end.

(** The [response] attribute of [e], [None] when it has none. *)
Definition exn_response (e : exn) : option Response :=
  match e with
  | HTTPError _ r | RequestError _ r => r
  | _ => None
  end.

(** The JSON document of a request, [payload] of source lines 130-139. *)
Record Payload : Type := {
  p_text : str;
  p_number : str;
  p_serviceId : str;
  p_file_base64 : str;
  p_file_mimetype : str;
  p_file_name : str
}.

(** What the script does to its surroundings, in order. *)
Inductive event : Type :=
| ReadImage (src : str)                                   (* [read_image_bytes] entered *)
| Post (url : str) (authorization : str) (body : Payload) (* [requests.post] *)
| Sleep.                                                  (* [time.sleep(DELAY)] *)

(** The answer to one HTTP exchange. *)
Inductive http_outcome : Type :=
| NoResponse (msg : str) (response : option Response)
    (* [requests] raises: the message and the [response] of its exception *)
| Got (r : Response).

(** The world the script runs in.  [net] gives the outcome of the n-th call
    of [requests] in the run, whatever the request, and [exchanges] counts
    the calls: every behaviour of the servers is some [net].  Binary files
    (the image) and text files (the ledger) are separate name spaces, and
    nothing but the script writes to them during a run.  [images] holds the
    files that can be read, [unreadable] the other paths that exist (a
    directory, a file without permission) with the message of the error that
    reading them raises. *)
Record World : Type := {
  images : str -> option bytes;
  unreadable : str -> option str;
  tables : str -> option (list (list str));   (* rows [csv.reader] yields, by path *)
  textfiles : str -> option str;
  net : nat -> http_outcome;
  exchanges : nat;
  trace : list event
}.

Definition log_event (ev : event) (w : World) : World :=
  {| images := images w; unreadable := unreadable w; tables := tables w; textfiles := textfiles w;
     net := net w; exchanges := exchanges w; trace := trace w ++ [ev] |}.

Definition tick (w : World) : World :=
  {| images := images w; unreadable := unreadable w; tables := tables w; textfiles := textfiles w;
     net := net w; exchanges := S (exchanges w); trace := trace w |}.

Definition write_text (path : str) (data : str) (w : World) : World :=
  {| images := images w; unreadable := unreadable w; tables := tables w;
     textfiles := fun p => if str_eqb p path then Some data else textfiles w p;
     net := net w; exchanges := exchanges w; trace := trace w |}.

(** ** Computations that may raise *)

Inductive result (A : Type) : Type :=
| Ok (a : A)
| Raise (e : exn).

Arguments Ok {A} a.

Arguments Raise {A} e.

Definition M (A : Type) : Type := World -> result A * World.

Definition ret {A} (a : A) : M A := fun w => (Ok a, w).

Definition raise {A} (e : exn) : M A := fun w => (Raise e, w).

Definition bind {A B} (m : M A) (k : A -> M B) : M B :=
  fun w => match m w with
           | (Ok a, w') => k a w'
           | (Raise e, w') => (Raise e, w')
           end.

(** [try: m  except Exception as e: h e] *)
Definition try_except {A} (m : M A) (h : exn -> M A) : M A :=
  fun w => match m w with
           | (Ok a, w') => (Ok a, w')
           | (Raise e, w') => h e w'
           end.

Definition effect (f : World -> World) : M unit := fun w => (Ok tt, f w).

Definition ask {A} (f : World -> A) : M A := fun w => (Ok (f w), w).

Declare Scope py_scope.

Delimit Scope py_scope with py.

Notation "x <- m ;; k" := (bind m (fun x => k))
  (at level 100, m at next level, right associativity) : py_scope.

Notation "m ;;; k" := (bind m (fun _ => k))
  (at level 100, right associativity) : py_scope.

Open Scope py_scope.

(** ** Libraries behind an interface *)

(** Pillow: [pil_open b] is [None] when [Image.open] raises, and otherwise
    tells whether the image's format, upper-cased, is JPEG;
    [pil_to_jpeg b] is the result of converting to RGB and saving as JPEG
    (quality 85, optimized), [None] when that raises. *)
Class Pillow : Type := {
  pil_open : bytes -> option bool;
  pil_to_jpeg : bytes -> option bytes
}.

(** pathlib: [Path(p).name] and [Path(p).stem] of the running platform. *)
Class PathLib : Type := {
  path_name : str -> str;
  path_stem : str -> str
}.

(** ** The script *)

Definition nonempty (s : str) : bool := match s with [] => false | _ :: _ => true end.

(** [a or b] on an optional string: [None] and the empty string are both
    falsy. *)
Definition str_or (a : option str) (b : str) : str :=
  match a with
  | Some s => if nonempty s then s else b
  | None => b
  end.

Definition mem_str (s : str) (l : list str) : bool := existsb (str_eqb s) l.

(** [next(i for i, h in enumerate(l) if p h)], [None] for [StopIteration]. *)
Fixpoint first_index (p : str -> bool) (l : list str) (i : nat) : option nat :=
  match l with
  | [] => None
  | h :: l' => if p h then Some i else first_index p l' (S i)
  end.

Record Contact : Type := { nome : str; telefone : str }.

Inductive load_result : Type :=
| MissingPhoneColumn (header : list str)   (* the [ValueError] of source line 80 *)
| Loaded (rows : list Contact).

Definition FIELDNAMES : list str :=
  [lit "linha"; lit "telefone"; lit "status"; lit "http"; lit "detalhe"].

Definition PHONE_ALIASES : list str :=
  [lit "telefone"; lit "celular"; lit "celular.1"; lit "fone"; lit "phone"; lit "number"].

Definition NAME_ALIASES : list str := [lit "nome"; lit "name"].

Definition LEDGER : str := lit "resultado_envio.csv".

(** The limit of source line 124. *)
Definition MAX_BYTES : Z := 63 * 1024 * 1024.

(** A source that is fetched over HTTP (source lines 32 and 178). *)
Definition is_remote (src : str) : bool :=
  startswith (lit "http://") src || startswith (lit "https://") src.

(** [os.path.exists(p)] and [Path(p).exists()]. *)
Definition path_exists (w : World) (p : str) : bool :=
  match images w p, unreadable w p with
  | None, None => false
  | _, _ => true
  end.

Section Script.

Context {U : Unicode} {P : Pillow} {L : PathLib}.

(** [ensure_jpeg_bytes] (source lines 41-58): every failure inside the
    [try] falls back to the original bytes. *)
Definition ensure_jpeg_bytes (img_bytes : bytes) : bytes :=
  match pil_open img_bytes with
  | None => img_bytes
  | Some true => img_bytes
  | Some false =>
      match pil_to_jpeg img_bytes with
      | Some out => out
      | None => img_bytes
      end
  end.

(** [requests.get] and [requests.post]: the next answer of the network, or
    the exception [requests] raises, with the response it carries. *)
Definition http_exchange : M Response :=
  fun w => match net w (exchanges w) with
           | NoResponse msg resp => (Raise (RequestError msg resp), tick w)
           | Got r => (Ok r, tick w)
           end.

Definition requests_get (url : str) : M Response := http_exchange.

Definition requests_post (url authorization : str) (body : Payload) : M Response :=
  effect (log_event (Post url authorization body)) ;;; http_exchange.

(** [r.raise_for_status()]: the message is empty unless the status is 4xx
    or 5xx, and a non-empty message is raised as an [HTTPError] that carries
    the response. *)
Definition http_error_msg (r : Response) : str :=
  let describe kind :=
    str_of_int (status_code r) ++ lit " " ++ kind ++ lit " Error: " ++ reason r
    ++ lit " for url: " ++ resp_url r in
  if ((400 <=? status_code r) && (status_code r <? 500))%Z then describe (lit "Client")
  else if ((500 <=? status_code r) && (status_code r <? 600))%Z then describe (lit "Server")
  else [].

Definition raise_for_status (r : Response) : M unit :=
  if nonempty (http_error_msg r)
  then raise (HTTPError (http_error_msg r) (Some r))
  else ret tt.

(** [r.json()] *)
Definition response_json (r : Response) : M json :=
  match body_json r with
  | Json v => ret v
  | NotJson msg => raise (JSONDecodeError msg)
  end.

(** [read_image_bytes] (source lines 31-39). *)
Definition read_image_bytes (src : str) : M bytes :=
  effect (log_event (ReadImage src)) ;;;
  if is_remote src then
    r <- requests_get src ;;
    raise_for_status r ;;;
    ret (content r)
  else
    found <- ask (fun w => images w src) ;;
    denied <- ask (fun w => unreadable w src) ;;
    match found, denied with
    | None, None =>                                   (* [not p.exists()] *)
        raise (FileNotFoundError (lit "Imagem n" ++ [227%N] ++ lit "o encontrada: " ++ src))
    | Some b, _ => ret b                              (* [p.read_bytes()] *)
    | None, Some msg => raise (OSError msg)           (* [p.read_bytes()] raises *)
    end.

(** The header cell of source line 76: stripped, lower-cased, byte-order
    marks (U+FEFF) removed. *)
Definition clean_header (h : str) : str :=
  filter (fun c => negb (chr_eqb c 65279%N)) (lower (strip h)).

(** The loop of source lines 85-91. *)
Fixpoint collect_rows (idx_tel : nat) (idx_nome : option nat) (lines : list (list str))
  : list Contact :=
  match lines with
  | [] => []
  | line :: rest =>
      if negb (existsb nonempty line) then collect_rows idx_tel idx_nome rest
      else
        let telefone :=
          normalize_phone (if (idx_tel <? List.length line)%nat then nth idx_tel line [] else []) in
        let nome :=
          match idx_nome with
          | Some j => if (j <? List.length line)%nat then strip (nth j line []) else []
          | None => []
          end in
        if nonempty telefone
        then {| nome := nome; telefone := telefone |} :: collect_rows idx_tel idx_nome rest
        else collect_rows idx_tel idx_nome rest
  end.

(** [load_contacts_csv] (source lines 66-92) on the rows the CSV reader
    yields: the first is the header, [next(reader, [])]. *)
Definition load_contacts_csv (table : list (list str)) : load_result :=
  let header := map clean_header (hd [] table) in
  match first_index (fun h => mem_str h PHONE_ALIASES) header 0 with
  | None => MissingPhoneColumn header
  | Some idx_tel =>
      let idx_nome := first_index (fun h => mem_str h NAME_ALIASES) header 0 in
      Loaded (collect_rows idx_tel idx_nome (tl table))
  end.

(** [append_row] (source lines 94-106) on a record whose line the encoder
    of the file accepts; [append_row_utf8] below has the other case as
    well.  Opening in append mode creates an absent file; the size test
    sees the contents before this call's writes. *)
Definition append_row (csv_path : str) (linha : Z) (telefone status : str) (http : Z)
    (detalhe_dict : json) : M unit :=
  file_exists <- ask (fun w => match textfiles w csv_path with Some _ => true | None => false end) ;;
  old <- ask (fun w => match textfiles w csv_path with Some s => s | None => [] end) ;;
  let header := if negb file_exists || negb (nonempty old) then csv_line FIELDNAMES else [] in
  let row := csv_line [str_of_int linha; telefone; status; str_of_int http;
                       json_dumps detalhe_dict] in
  effect (write_text csv_path (old ++ header ++ row)).

(** [f.write(s)] on the file that source line 96 opens: text appended to
    [csv_path] through the strict UTF-8 encoder, nothing written when the
    encoder refuses [s]. *)
Definition write_utf8 (csv_path s : str) : M unit :=
  match utf8_error s with
  | Some msg => raise (UnicodeEncodeError msg)
  | None =>
      effect (fun w => write_text csv_path
                         (match textfiles w csv_path with Some t => t | None => [] end ++ s) w)
  end.

(** [append_row] (source lines 94-106) with the text layer in full.  The
    file is created by the open of line 96, the header and the record are
    two writes (lines 99 and 100), and the file is closed with what was
    written when a write raises.  [append_row] above is this function on
    records the encoder accepts (lemma [append_row_utf8_encodable]). *)
Definition append_row_utf8 (csv_path : str) (linha : Z) (telefone status : str) (http : Z)
    (detalhe_dict : json) : M unit :=
  file_exists <- ask (fun w => match textfiles w csv_path with Some _ => true | None => false end) ;;
  old <- ask (fun w => match textfiles w csv_path with Some s => s | None => [] end) ;;
  effect (write_text csv_path old) ;;;
  (if negb file_exists || negb (nonempty old)
   then write_utf8 csv_path (csv_line FIELDNAMES) else ret tt) ;;;
  write_utf8 csv_path
    (csv_line [str_of_int linha; telefone; status; str_of_int http; json_dumps detalhe_dict]).

(** The [name] entry of the payload (source lines 128 and 137). *)
Definition base_name (img_src : str) (filename : option str) : str :=
  str_or filename
    (if negb (startswith (lit "http") img_src) then path_name img_src else lit "image.jpg").

Definition file_name (img_src : str) (filename : option str) : str :=
  let name := base_name img_src filename in
  if endswith (lit ".jpg") (lower name) || endswith (lit ".jpeg") (lower name)
  then name
  else path_stem name ++ lit ".jpg".

(** [send_image_with_caption_base64] (source lines 109-152). *)
Definition send_image_with_caption_base64 (api_base_v1 token number service_id text img_src : str)
    (filename : option str) : M json :=
  raw <- read_image_bytes img_src ;;
  let jpg := ensure_jpeg_bytes raw in
  if (len_bytes jpg >? MAX_BYTES)%Z then
    raise (ValueError (lit "Arquivo > 63MB (" ++ str_of_int (len_bytes jpg) ++ lit " bytes)"))
  else
    let b64 := to_base64 jpg in
    let payload :=
      {| p_text := strip text;
         p_number := number;
         p_serviceId := service_id;
         p_file_base64 := b64;
         p_file_mimetype := lit "image/jpeg";
         p_file_name := file_name img_src filename |} in
    let url := rstrip_chars (lit "/") api_base_v1 ++ lit "/messages" in
    r <- requests_post url (lit "Bearer " ++ token) payload ;;
    try_except (raise_for_status r)
      (fun e =>
         match e with
         | HTTPError _ _ =>
             let body := prefix 800 (resp_text r) in
             raise (HTTPError (exn_str e ++ lit " | body=" ++ body) None)
         | _ => raise e
         end) ;;;
    response_json r.

(** The values the main block reads from the environment (source lines
    163-168).  [DELAY_positive] is the test [DELAY > 0] on the parsed
    float; a DELAY_SECONDS that is not a number ends the script on line 168
    and is outside the model. *)
Record Settings : Type := {
  API_V1 : str;
  TOKEN : str;
  SRVID : str;
  IMAGE : str;
  TEXT : str;
  DELAY_positive : bool
}.

(** The first non-empty of MESSAGE_TEMPLATE and MESSAGE_TEXT, else the empty
    string (source line 167, before the strip). *)
Definition message_template (getenv : str -> option str) : str :=
  str_or (getenv (lit "MESSAGE_TEMPLATE")) (str_or (getenv (lit "MESSAGE_TEXT")) []).

Definition settings_of (getenv : str -> option str) (delay_positive : bool) : Settings :=
  {| API_V1 := rstrip_chars (lit "/") (str_or (getenv (lit "DIGISAC_API_URL")) []);
     TOKEN := str_or (getenv (lit "DIGISAC_TOKEN")) [];
     SRVID := str_or (getenv (lit "DIGISAC_SERVICE")) [];
     IMAGE := str_or (getenv (lit "IMAGE_SRC")) (lit "banner.jpg");
     TEXT := strip (message_template getenv);
     DELAY_positive := delay_positive |}.

(** [x or 0] on an integer. *)
Definition int_or_zero (x : Z) : Z := if (x =? 0)%Z then 0%Z else x.

(** The status code the handler of source line 194 extracts. *)
Definition code_of (e : exn) : Z :=
  int_or_zero (match exn_response e with
               | Some r => status_code r
               | None => 0%Z
               end).

(** One turn of the loop (source lines 187-198) for the [i]-th contact of
    [total], with records that the encoder of the ledger accepts. *)
Definition iteration (cfg : Settings) (total i : nat) (c : Contact) : M unit :=
  let tel := telefone c in
  try_except
    (resp <- send_image_with_caption_base64 (API_V1 cfg) (TOKEN cfg) tel (SRVID cfg)
               (TEXT cfg) (IMAGE cfg) None ;;
     append_row LEDGER (Z.of_nat i) tel (lit "ENVIADO") 200 (JObj [(lit "resp", resp)]))
    (fun e =>
       let code := code_of e in
       append_row LEDGER (Z.of_nat i) tel (lit "FALHA") code
         (JObj [(lit "erro", JStr (exn_str e))])) ;;;
  if DELAY_positive cfg && (i <? total)%nat then effect (log_event Sleep) else ret tt.

(** The same turn with the text layer in full: a record the encoder refuses
    inside the [try] sends the turn into its handler, and an exception of
    the handler's own write leaves the loop. *)
Definition iteration_utf8 (cfg : Settings) (total i : nat) (c : Contact) : M unit :=
  let tel := telefone c in
  try_except
    (resp <- send_image_with_caption_base64 (API_V1 cfg) (TOKEN cfg) tel (SRVID cfg)
               (TEXT cfg) (IMAGE cfg) None ;;
     append_row_utf8 LEDGER (Z.of_nat i) tel (lit "ENVIADO") 200 (JObj [(lit "resp", resp)]))
    (fun e =>
       let code := code_of e in
       append_row_utf8 LEDGER (Z.of_nat i) tel (lit "FALHA") code
         (JObj [(lit "erro", JStr (exn_str e))])) ;;;
  if DELAY_positive cfg && (i <? total)%nat then effect (log_event Sleep) else ret tt.

(** [for i, c in enumerate(contacts, start=1)], from index [i] on. *)
Fixpoint dispatch_from (cfg : Settings) (total i : nat) (cs : list Contact) : M unit :=
  match cs with
  | [] => ret tt
  | c :: rest => iteration cfg total i c ;;; dispatch_from cfg total (S i) rest
  end.

Definition dispatch_all (cfg : Settings) (contacts : list Contact) : M unit :=
  dispatch_from cfg (List.length contacts) 1 contacts.

Record Args : Type := { arg_file : str; arg_limit : Z }.

(** How the process ends. *)
Inductive exit : Type :=
| Finished
| SystemExit (msg : str)
| HeaderError (header : list str)     (* uncaught [ValueError] of [load_contacts_csv] *)
| Uncaught (e : exn).

(** [contacts[:limit]] when the limit is positive. *)
Definition apply_limit (limit : Z) (contacts : list Contact) : list Contact :=
  if (limit >? 0)%Z then firstn (Z.to_nat limit) contacts else contacts.

(** The main block from source line 170 on, with the settings of lines
    163-167 read from [getenv] and [delay_positive] telling whether the
    [DELAY] of line 168 is greater than 0. *)
Definition main (getenv : str -> option str) (delay_positive : bool) (args : Args)
  : World -> exit * World :=
  fun w =>
    let cfg := settings_of getenv delay_positive in
    if negb (nonempty (API_V1 cfg)) || negb (nonempty (TOKEN cfg)) || negb (nonempty (SRVID cfg))
    then (SystemExit (lit "Defina DIGISAC_API_URL, DIGISAC_TOKEN e DIGISAC_SERVICE no .env"), w)
    else if negb (is_remote (IMAGE cfg)) && negb (path_exists w (IMAGE cfg))
    then (SystemExit (lit "Imagem n" ++ [227%N] ++ lit "o encontrada: " ++ IMAGE cfg), w)
    else
      match tables w (arg_file args) with
      | None => (Uncaught (FileNotFoundError (arg_file args)), w)
      | Some table =>
          match load_contacts_csv table with
          | MissingPhoneColumn header => (HeaderError header, w)
          | Loaded rows =>
              let contacts := apply_limit (arg_limit args) rows in
              match dispatch_all cfg contacts w with
              | (Ok _, w') => (Finished, w')
              | (Raise e, w') => (Uncaught e, w')
              end
          end
      end.

(** Source line 168, [float(os.getenv("DELAY_SECONDS") or 0)], with the test
    [DELAY > 0] of line 197.  [float_gt_zero s] is [float(s)] as far as the
    script looks at it: the [ValueError] it raises, or whether the number is
    greater than 0.  An unset or empty variable gives [float(0)]. *)
Definition delay_of (float_gt_zero : str -> result bool) (getenv : str -> option str)
  : result bool :=
  match getenv (lit "DELAY_SECONDS") with
  | Some (c :: s) => float_gt_zero (c :: s)
  | _ => Ok false
  end.

(** The main block after [load_env_file] (source lines 163-198): the
    exception of line 168 is not caught and comes before every check. *)
Definition main_block (float_gt_zero : str -> result bool) (getenv : str -> option str)
    (args : Args) : World -> exit * World :=
  fun w =>
    match delay_of float_gt_zero getenv with
    | Raise e => (Uncaught e, w)
    | Ok delay_positive => main getenv delay_positive args w
    end.

End Script.

(** ** The [.env] file *)

(** The character classes of the pattern on source line 14. *)
Definition is_key_start (c : char) : bool :=
  (((65 <=? c) && (c <=? 90)) || ((97 <=? c) && (c <=? 122)) || (c =? 95))%N.

Definition is_key_char (c : char) : bool := is_key_start c || ascii_isdigit c.

Fixpoint takewhile (p : char -> bool) (s : str) : str :=
  match s with
  | [] => []
  | c :: s' => if p c then c :: takewhile p s' else []
  end.

(** [v[1:-1]] *)
Definition strip_ends (v : str) : str := removelast (tl v).

(** The unquoting of source lines 18-19: a value that begins and ends with
    the same kind of quote loses both ends. *)
Definition unquote (v : str) : str :=
  if (startswith [34%N] v && endswith [34%N] v) || (startswith [39%N] v && endswith [39%N] v)
  then strip_ends v
  else v.

Definition has_nul (v : str) : bool := existsb (chr_eqb 0%N) v.

(** [os.environ.setdefault(k, v)]: a variable that is set keeps its value,
    and [v] is not looked at; setting a variable to a value that holds the
    NUL character raises [ValueError]. *)
Definition setdefault (env : str -> option str) (k v : str) : result (str -> option str) :=
  match env k with
  | Some _ => Ok env
  | None =>
      if has_nul v then Raise (ValueError (lit "embedded null byte"))
      else Ok (fun k' => if str_eqb k' k then Some v else env k')
  end.

Section Env.

Context {U : Unicode}.

(** [re.match] of the pattern of source line 14 against a line: optional
    whitespace, a key made of a letter or underscore and then letters,
    digits and underscores, optional whitespace, an equals sign, optional
    whitespace, the value up to the end of the line, optional whitespace to
    the end of the string.  Each star is greedy and no shorter choice can
    make the match succeed when the longest one fails, so the groups are the
    longest ones; the dot matches everything but the newline. *)
Definition match_env_line (line : str) : option (str * str) :=
  let s := dropwhile isspace line in
  match s with
  | [] => None
  | c :: _ =>
      if is_key_start c then
        let k := takewhile is_key_char s in
        match dropwhile isspace (dropwhile is_key_char s) with
        | [] => None
        | e :: rest =>
            if chr_eqb e 61%N then
              let after := dropwhile isspace rest in
              let v := takewhile (fun x => negb (chr_eqb x 10%N)) after in
              let tail := dropwhile (fun x => negb (chr_eqb x 10%N)) after in
              if forallb isspace tail then Some (k, v) else None
            else None
        end
      else None
  end.

(** The loop of source lines 13-20 over the lines of the file: the
    environment it leaves, and the exception that ended it, if any. *)
Fixpoint load_env_lines (lines : list str) (env : str -> option str)
  : option exn * (str -> option str) :=
  match lines with
  | [] => (None, env)
  | line :: rest =>
      match match_env_line line with
      | None => load_env_lines rest env
      | Some (k, v) =>
          match setdefault env k (unquote v) with
          | Ok env' => load_env_lines rest env'
          | Raise e => (Some e, env)
          end
      end
  end.

(** [load_env_file] (source lines 10-20): [file] is the list of the lines
    of the file, [None] when the path does not exist. *)
Definition load_env_file (file : option (list str)) (env : str -> option str)
  : option exn * (str -> option str) :=
  match file with
  | None => (None, env)
  | Some lines => load_env_lines lines env
  end.

End Env.

Section Whole.

Context {U : Unicode} {P : Pillow} {L : PathLib}.

(** The script from the call of [load_env_file] on (source lines 161-198):
    [file] is the [.env] file and [environ] the environment of the process.
    An exception of the loader is not caught, and it comes before
    everything else. *)
Definition script (float_gt_zero : str -> result bool) (file : option (list str))
    (environ : str -> option str) (args : Args) : World -> exit * World :=
  fun w =>
    match load_env_file file environ with
    | (Some e, _) => (Uncaught e, w)
    | (None, getenv) => main_block float_gt_zero getenv args w
    end.

End Whole.

(** * Vocabulary of the statements *)

(** One record of the ledger: the five arguments of [append_row] after the
    path. *)
Record Outcome : Type := {
  o_linha : Z;
  o_telefone : str;
  o_status : str;
  o_http : Z;
  o_detalhe : json
}.

(** The line [csv.DictWriter.writerow] produces for a record. *)
Definition row_line (o : Outcome) : str :=
  csv_line [str_of_int (o_linha o); o_telefone o; o_status o; str_of_int (o_http o);
            json_dumps (o_detalhe o)].

Definition append_outcome (path : str) (o : Outcome) : M unit :=
  append_row path (o_linha o) (o_telefone o) (o_status o) (o_http o) (o_detalhe o).

Fixpoint append_all (path : str) (os : list Outcome) : M unit :=
  match os with
  | [] => ret tt
  | o :: rest => append_outcome path o ;;; append_all path rest
  end.

(** The same with the text layer in full. *)
Definition append_outcome_utf8 (path : str) (o : Outcome) : M unit :=
  append_row_utf8 path (o_linha o) (o_telefone o) (o_status o) (o_http o) (o_detalhe o).

Fixpoint append_all_utf8 (path : str) (os : list Outcome) : M unit :=
  match os with
  | [] => ret tt
  | o :: rest => append_outcome_utf8 path o ;;; append_all_utf8 path rest
  end.

(** The line of the record is text the UTF-8 encoder accepts. *)
Definition encodable (o : Outcome) : bool :=
  match utf8_error (row_line o) with
  | None => true
  | Some _ => false
  end.

(** A file that is absent or of length zero. *)
Definition fresh (f : option str) : bool :=
  match f with
  | None => true
  | Some s => negb (nonempty s)
  end.

Definition file_text (f : option str) : str :=
  match f with
  | Some s => s
  | None => []
  end.

(** The file after the records [os] went in, in order. *)
Definition ledger_with (f : option str) (os : list Outcome) : option str :=
  match os with
  | [] => f
  | _ :: _ =>
      Some (file_text f ++ (if fresh f then csv_line FIELDNAMES else [])
            ++ flat_map row_line os)
  end.

(** The record the loop writes for contact [i] with phone [tel], given how
    the send ended (source lines 191 and 194-195). *)
Definition outcome_of (i : nat) (tel : str) (r : result json) : Outcome :=
  match r with
  | Ok resp =>
      {| o_linha := Z.of_nat i; o_telefone := tel; o_status := lit "ENVIADO";
         o_http := 200; o_detalhe := JObj [(lit "resp", resp)] |}
  | Raise e =>
      {| o_linha := Z.of_nat i; o_telefone := tel; o_status := lit "FALHA";
         o_http := code_of e; o_detalhe := JObj [(lit "erro", JStr (exn_str e))] |}
  end.

(** The world is the same but for the exchange counter and the trace. *)
Definition same_files (w w' : World) : Prop :=
  images w' = images w /\ tables w' = tables w /\ textfiles w' = textfiles w
  /\ net w' = net w.

Definition is_post (ev : event) : bool :=
  match ev with Post _ _ _ => true | _ => false end.

Definition is_read (ev : event) : bool :=
  match ev with ReadImage _ => true | _ => false end.

(** The records of a run from index [i], from how each send ended. *)
Fixpoint outcomes (i : nat) (cs : list Contact) (rs : list (result json)) : list Outcome :=
  match cs, rs with
  | c :: cs', r :: rs' => outcome_of i (telefone c) r :: outcomes (S i) cs' rs'
  | _, _ => []
  end.

(** The records of a run in which every send raised [e]. *)
Definition failed_rows (e : exn) (i : nat) (cs : list Contact) : list Outcome :=
  map (fun ic => {| o_linha := Z.of_nat (fst ic);
                    o_telefone := telefone (snd ic);
                    o_status := lit "FALHA";
                    o_http := code_of e;
                    o_detalhe := JObj [(lit "erro", JStr (exn_str e))] |})
      (combine (seq i (List.length cs)) cs).

Definition too_large (n : Z) : exn :=
  ValueError (lit "Arquivo > 63MB (" ++ str_of_int n ++ lit " bytes)").

Definition ascii_row (line : list str) : bool := forallb (forallb is_ascii) line.

Definition is_error_status (r : Response) : bool :=
  ((400 <=? status_code r) && (status_code r <? 600))%Z.

Section Vocabulary.
Context {U : Unicode} {P : Pillow} {L : PathLib}.

(** The request [send_image_with_caption_base64] posts for an image. *)
Definition request_for (api_base_v1 token number service_id text img_src : str)
    (filename : option str) (jpg : bytes) : event :=
  Post (rstrip_chars (lit "/") api_base_v1 ++ lit "/messages") (lit "Bearer " ++ token)
    {| p_text := strip text;
       p_number := number;
       p_serviceId := service_id;
       p_file_base64 := to_base64 jpg;
       p_file_mimetype := lit "image/jpeg";
       p_file_name := file_name img_src filename |}.

(** The send of the main loop for one contact (source line 190). *)
Definition send_for (cfg : Settings) (c : Contact) : M json :=
  send_image_with_caption_base64 (API_V1 cfg) (TOKEN cfg) (telefone c) (SRVID cfg)
    (TEXT cfg) (IMAGE cfg) None.

Definition request_of (cfg : Settings) (c : Contact) (jpg : bytes) : event :=
  request_for (API_V1 cfg) (TOKEN cfg) (telefone c) (SRVID cfg) (TEXT cfg) (IMAGE cfg)
    None jpg.

(** The world after one turn of the loop, from how the send ended. *)
Definition after_turn (cfg : Settings) (total i : nat) (c : Contact)
    (sent : result json * World) : World :=
  let w2 := snd (append_outcome LEDGER (outcome_of i (telefone c) (fst sent)) (snd sent)) in
  if DELAY_positive cfg && (i <? total)%nat then log_event Sleep w2 else w2.

(** The cell of a row at a column, empty when the row is too short. *)
Definition cell (idx : nat) (line : list str) : str :=
  if (idx <? List.length line)%nat then nth idx line [] else [].

Definition phone_of (idx_tel : nat) (line : list str) : str :=
  normalize_phone (cell idx_tel line).

Definition name_of (idx_nome : option nat) (line : list str) : str :=
  match idx_nome with
  | Some j => if (j <? List.length line)%nat then strip (nth j line []) else []
  | None => []
  end.

(** A row that yields a contact: not blank, and with a phone that
    normalizes to something. *)
Definition kept (idx_tel : nat) (line : list str) : bool :=
  existsb nonempty line && nonempty (phone_of idx_tel line).

Definition contact_of (idx_tel : nat) (idx_nome : option nat) (line : list str) : Contact :=
  {| nome := name_of idx_nome line; telefone := phone_of idx_tel line |}.

End Vocabulary.

(** * A concrete platform and a sample run *)

(** [s.split(sep)] on a single character. *)
Fixpoint split_on (sep : char) (s : str) : list str :=
  match s with
  | [] => [[]]
  | c :: s' =>
      if chr_eqb c sep then [] :: split_on sep s'
      else match split_on sep s' with
           | [] => [[c]]
           | p :: ps => (c :: p) :: ps
           end
  end.

(** [name.rfind(c)], [None] for -1. *)
Fixpoint rfind (c : char) (s : str) (i : nat) : option nat :=
  match s with
  | [] => None
  | x :: s' =>
      match rfind c s' (S i) with
      | Some j => Some j
      | None => if chr_eqb x c then Some i else None
      end
  end.

(** [PurePosixPath(p).name]: the last component that is neither empty nor a
    single dot. *)
Definition posix_name (p : str) : str :=
  last (filter (fun x => nonempty x && negb (str_eqb x (lit "."))) (split_on 47%N p)) [].

(** [PurePosixPath(p).stem]: the name without its last suffix; a leading or
    a trailing dot starts no suffix. *)
Definition posix_stem (p : str) : str :=
  let name := posix_name p in
  match rfind 46%N name 0 with
  | Some i => if (0 <? i)%nat && (i <? List.length name - 1)%nat then firstn i name else name
  | None => name
  end.

Definition posix : PathLib := {| path_name := posix_name; path_stem := posix_stem |}.

(** An interpreter without Pillow: the import inside [ensure_jpeg_bytes]
    raises and the bytes go out as they came in. *)
Definition no_pillow : Pillow := {| pil_open := fun _ => None; pil_to_jpeg := fun _ => None |}.

Definition empty_world : World :=
  {| images := fun _ => None;
     unreadable := fun _ => None;
     tables := fun _ => None;
     textfiles := fun _ => None;
     net := fun _ => NoResponse (lit "Connection refused") None;
     exchanges := 0;
     trace := [] |}.

(** The services on code points below 256, where they coincide with
    CPython's tables (superscript digits are digits, NEL and NBSP are
    whitespace); characters above are left alone. *)
Definition latin1_isdigit (c : char) : bool :=
  (ascii_isdigit c || (c =? 178) || (c =? 179) || (c =? 185))%N.

Definition latin1_isspace (c : char) : bool :=
  (ascii_isspace c || (c =? 133) || (c =? 160))%N.

Definition latin1_lower_chr (c : char) : char :=
  if ((65 <=? c) && (c <=? 90))%N then (c + 32)%N
  else if ((192 <=? c) && (c <=? 222) && negb (c =? 215))%N then (c + 32)%N
  else c.

Lemma latin1_isdigit_ascii (c : char) :
  is_ascii c = true -> latin1_isdigit c = ascii_isdigit c.
Proof.
  unfold is_ascii, latin1_isdigit. intros H. apply N.ltb_lt in H.
  assert (E1 : (c =? 178)%N = false) by (apply N.eqb_neq; lia).
  assert (E2 : (c =? 179)%N = false) by (apply N.eqb_neq; lia).
  assert (E3 : (c =? 185)%N = false) by (apply N.eqb_neq; lia).
  rewrite E1, E2, E3. now rewrite !orb_false_r.
Qed.

Lemma latin1_isspace_ascii (c : char) :
  is_ascii c = true -> latin1_isspace c = ascii_isspace c.
Proof.
  unfold is_ascii, latin1_isspace. intros H. apply N.ltb_lt in H.
  assert (E1 : (c =? 133)%N = false) by (apply N.eqb_neq; lia).
  assert (E2 : (c =? 160)%N = false) by (apply N.eqb_neq; lia).
  rewrite E1, E2. now rewrite !orb_false_r.
Qed.

Lemma latin1_isspace_not_digit (c : char) :
  latin1_isspace c = true -> latin1_isdigit c = false.
Proof.
  unfold latin1_isspace, latin1_isdigit, ascii_isspace, ascii_isdigit.
  intros H.
  destruct (48 <=? c)%N eqn:A, (c <=? 57)%N eqn:B,
           (c =? 178)%N eqn:C, (c =? 179)%N eqn:D, (c =? 185)%N eqn:E;
    simpl; try reflexivity; exfalso;
    repeat match goal with
           | X : (_ <=? _)%N = true |- _ => apply N.leb_le in X
           | X : (_ <=? _)%N = false |- _ => apply N.leb_gt in X
           | X : (_ =? _)%N = true |- _ => apply N.eqb_eq in X
           | X : (_ =? _)%N = false |- _ => apply N.eqb_neq in X
           end;
    repeat match goal with
           | X : (_ || _) = true |- _ => apply orb_true_iff in X; destruct X
           | X : (_ && _) = true |- _ => apply andb_true_iff in X; destruct X
           end;
    repeat match goal with
           | X : (_ <=? _)%N = true |- _ => apply N.leb_le in X
           | X : (_ =? _)%N = true |- _ => apply N.eqb_eq in X
           end; lia.
Qed.

Lemma latin1_lower_ascii (t : str) :
  forallb is_ascii t = true -> map latin1_lower_chr t = map ascii_lower t.
Proof.
  induction t as [|c t IH]; simpl; [reflexivity|].
  intros H. apply andb_true_iff in H as [Hc Ht]. rewrite (IH Ht). f_equal.
  unfold latin1_lower_chr, ascii_lower, is_ascii in *. apply N.ltb_lt in Hc.
  destruct ((65 <=? c) && (c <=? 90))%N; [reflexivity|].
  assert (E : (192 <=? c)%N = false) by (apply N.leb_gt; lia).
  now rewrite E.
Qed.

Lemma latin1_lower_ascii_tail (s t : str) :
  forallb is_ascii t = true ->
  exists s', map latin1_lower_chr (s ++ t) = s' ++ map ascii_lower t.
Proof.
  intros H. exists (map latin1_lower_chr s). rewrite map_app. f_equal.
  now apply latin1_lower_ascii.
Qed.

Definition latin1 : Unicode :=
  {| isdigit := latin1_isdigit;
     isspace := latin1_isspace;
     lower := map latin1_lower_chr;
     isdigit_ascii := latin1_isdigit_ascii;
     isspace_ascii := latin1_isspace_ascii;
     isspace_not_digit := latin1_isspace_not_digit;
     lower_ascii := latin1_lower_ascii;
     lower_ascii_tail := latin1_lower_ascii_tail |}.

Definition quoted (s : str) : str := DQUOTE :: s ++ [DQUOTE].

(** The environment after the [.env] file was read. *)
Definition sample_env (k : str) : option str :=
  if str_eqb k (lit "DIGISAC_API_URL") then Some (lit "https://api.example.com/api/v1/")
  else if str_eqb k (lit "DIGISAC_TOKEN") then Some (lit "0123456789abcdef")
  else if str_eqb k (lit "DIGISAC_SERVICE") then Some (lit "service-1")
  else if str_eqb k (lit "MESSAGE_TEMPLATE") then Some (lit "  Oferta da semana ")
  else None.

Definition sample_args : Args := {| arg_file := lit "teste.csv"; arg_limit := 0 |}.

Definition ana : Contact := {| nome := lit "Ana"; telefone := lit "5511999990000" |}.

Definition bea : Contact := {| nome := lit "Bea"; telefone := lit "5511888880000" |}.

(** The contact table of the end-to-end scenario, under a header. *)
Definition sample_table : list (list str) :=
  [[lit "nome"; lit "telefone"];
   [lit "Ana"; lit "11999990000"];
   [[]; lit "zz"];
   [lit "Bea"; lit "5511888880000"]].

Definition one_row_table : list (list str) :=
  [[lit "nome"; lit "telefone"]; [lit "Ana"; lit "11999990000"]].

(** A world with the image at banner.jpg, the table at teste.csv, no ledger
    yet and a gateway that gives the same answer every time. *)
Definition sample_world (image : bytes) (table : list (list str)) (answer : http_outcome)
  : World :=
  {| images := fun p => if str_eqb p (lit "banner.jpg") then Some image else None;
     unreadable := fun _ => None;
     tables := fun p => if str_eqb p (lit "teste.csv") then Some table else None;
     textfiles := fun _ => None;
     net := fun _ => answer;
     exchanges := 0;
     trace := [] |}.

Definition small_image : bytes := [255; 216; 255; 224]%N.

(** An image of 66,060,289 bytes, one over the limit. *)
Definition big_image : bytes := repeat 0%N (Z.to_nat 66060289).

Definition invalid_number_body : str :=
  lit "{" ++ quoted (lit "error") ++ lit ":" ++ quoted (lit "invalid number") ++ lit "}".

Definition answer_422 : http_outcome :=
  Got {| status_code := 422;
         reason := lit "Unprocessable Entity";
         resp_url := lit "https://api.example.com/api/v1/messages";
         content := [];
         resp_text := invalid_number_body;
         body_json := Json (JObj [(lit "error", JStr (lit "invalid number"))]) |}.

Definition accepted_body : json := JObj [(lit "id", JInt 1)].

Definition answer_200 : http_outcome :=
  Got {| status_code := 200;
         reason := lit "OK";
         resp_url := lit "https://api.example.com/api/v1/messages";
         content := [];
         resp_text := lit "{" ++ quoted (lit "id") ++ lit ":1}";
         body_json := Json accepted_body |}.

(** An accepted request whose answer holds a lone surrogate: the body has
    the escape for the code point DC80 in the string of its id. *)
Definition surrogate_body : json := JObj [(lit "id", JStr [56448%N])].

Definition answer_surrogate : http_outcome :=
  Got {| status_code := 200;
         reason := lit "OK";
         resp_url := lit "https://api.example.com/api/v1/messages";
         content := [];
         resp_text := lit "{" ++ quoted (lit "id") ++ lit ":"
                      ++ quoted ([BACKSLASH] ++ lit "udc80") ++ lit "}";
         body_json := Json surrogate_body |}.

(** What the encoder says of the record of that answer. *)
Definition surrogate_message : str :=
  lit "'utf-8' codec can't encode character '" ++ [BACKSLASH]
  ++ lit "udc80' in position 49: surrogates not allowed".

Definition sample_settings : Settings := settings_of (U := latin1) sample_env false.

Definition sent_row : Outcome := outcome_of 1 (telefone ana) (Ok accepted_body).

Definition failed_row : Outcome :=
  outcome_of 2 (telefone bea) (Raise (RequestError (lit "Connection refused") None)).

Definition surrogate_row : Outcome := outcome_of 1 (telefone ana) (Ok surrogate_body).

(** * Properties *)

(** ** Lists of characters *)

Lemma chr_eqb_eq (a b : char) : chr_eqb a b = true <-> a = b.
Proof. unfold chr_eqb. apply N.eqb_eq. Qed.

Lemma str_eqb_eq (a b : str) : str_eqb a b = true <-> a = b.
Proof.
  revert b. induction a as [|x a IH]; intros [|y b]; simpl; split; intros H;
    try reflexivity; try discriminate.
  - apply andb_true_iff in H as [Hxy Hab].
    apply chr_eqb_eq in Hxy. apply IH in Hab. now subst.
  - injection H as -> ->. apply andb_true_iff. split.
    + now apply chr_eqb_eq.
    + now apply IH.
Qed.

Lemma dropwhile_ext (p q : char -> bool) (s : str) :
  (forall c, p c = q c) -> dropwhile p s = dropwhile q s.
Proof.
  intros E. induction s as [|c s IH]; simpl; [reflexivity|].
  rewrite <- E, IH. reflexivity.
Qed.

Lemma dropwhile_idem (p : char -> bool) (s : str) :
  dropwhile p (dropwhile p s) = dropwhile p s.
Proof.
  induction s as [|c s IH]; simpl; [reflexivity|].
  destruct (p c) eqn:E; [exact IH|]. simpl. now rewrite E.
Qed.

Lemma dropwhile_snoc (p : char -> bool) (s : str) (c : char) :
  p c = false -> dropwhile p (s ++ [c]) = dropwhile p s ++ [c].
Proof.
  intros Hc. induction s as [|x s IH]; simpl.
  - now rewrite Hc.
  - destruct (p x); [exact IH | reflexivity].
Qed.

Lemma filter_dropwhile (p q : char -> bool) (s : str) :
  (forall c, q c = true -> p c = false) ->
  filter p (dropwhile q s) = filter p s.
Proof.
  intros H. induction s as [|c s IH]; simpl; [reflexivity|].
  destruct (q c) eqn:E; [|reflexivity].
  now rewrite (H c E).
Qed.

Lemma filter_rev (p : char -> bool) (s : str) : filter p (rev s) = rev (filter p s).
Proof.
  induction s as [|c s IH]; simpl; [reflexivity|].
  rewrite filter_app, IH. simpl. destruct (p c); simpl.
  - reflexivity.
  - now rewrite app_nil_r.
Qed.

Lemma filter_all (p : char -> bool) (s : str) :
  forallb p s = true -> filter p s = s.
Proof.
  induction s as [|c s IH]; simpl; [reflexivity|].
  intros H. apply andb_true_iff in H as [Hc Hs]. now rewrite Hc, IH.
Qed.

Lemma forallb_filter (p : char -> bool) (s : str) : forallb p (filter p s) = true.
Proof.
  induction s as [|c s IH]; simpl; [reflexivity|].
  destruct (p c) eqn:E; simpl; [now rewrite E|exact IH].
Qed.

Lemma forallb_dropwhile (p q : char -> bool) (s : str) :
  forallb p s = true -> forallb p (dropwhile q s) = true.
Proof.
  induction s as [|c s IH]; simpl; [reflexivity|].
  intros H. apply andb_true_iff in H as [Hc Hs].
  destruct (q c); [now apply IH|]. simpl. now rewrite Hc, Hs.
Qed.

Lemma dropwhile_head (p : char -> bool) (s : str) :
  match dropwhile p s with
  | [] => True
  | c :: _ => p c = false
  end.
Proof.
  induction s as [|c s IH]; simpl; [exact I|].
  destruct (p c) eqn:E; [exact IH | exact E].
Qed.

Lemma filter_ext_ascii (p q : char -> bool) (s : str) :
  (forall c, is_ascii c = true -> p c = q c) ->
  forallb is_ascii s = true -> filter p s = filter q s.
Proof.
  intros E. induction s as [|c s IH]; simpl; [reflexivity|].
  intros H. apply andb_true_iff in H as [Hc Hs]. now rewrite (E c Hc), IH.
Qed.

Lemma startswith_app (p s : str) : startswith p (p ++ s) = true.
Proof.
  induction p as [|c p IH]; simpl; [reflexivity|].
  rewrite IH. unfold chr_eqb. now rewrite N.eqb_refl.
Qed.

Lemma startswith_shorter (p q s : str) :
  startswith (p ++ q) s = true -> startswith p s = true.
Proof.
  revert s. induction p as [|c p IH]; intros s H; [destruct s; reflexivity|].
  destruct s as [|x s]; [discriminate|]. cbn in H |- *.
  apply andb_true_iff in H as [H1 H2]. rewrite H1. now apply IH.
Qed.

Lemma endswith_app (p s : str) : endswith p (s ++ p) = true.
Proof. unfold endswith. rewrite rev_app_distr. apply startswith_app. Qed.

(** ** The phone normalizer *)

Section NormalizeFacts.

Context {U : Unicode}.

Lemma digits_of_strip (raw : str) : filter isdigit (strip raw) = filter isdigit raw.
Proof.
  unfold strip, rstrip, lstrip.
  rewrite filter_rev, (filter_dropwhile _ _ _ isspace_not_digit), filter_rev, rev_involutive.
  apply filter_dropwhile, isspace_not_digit.
Qed.

Lemma lstrip_zero (s : str) : lstrip_chars (lit "0") s = strip_leading_zeros s.
Proof.
  unfold lstrip_chars, strip_leading_zeros. apply dropwhile_ext.
  intros c. change (lit "0") with [48%N].
  unfold mem_chr, existsb, chr_eqb. rewrite orb_false_r. apply N.eqb_sym.
Qed.

Lemma normalize_phone_unfold (raw : str) : normalize_phone raw = normalize_steps raw.
Proof.
  unfold normalize_phone, normalize_steps, digits_only.
  now rewrite lstrip_zero, digits_of_strip.
Qed.

Lemma digits_of_literal (s : str) :
  forallb is_ascii s = true -> filter isdigit s = filter ascii_isdigit s.
Proof. apply filter_ext_ascii. exact isdigit_ascii. Qed.

(** The digits that remain are all digits and do not begin with a zero. *)
Lemma significant_digits (raw : str) :
  let d := strip_leading_zeros (digits_only raw) in
  forallb isdigit d = true /\ strip_leading_zeros d = d.
Proof.
  unfold strip_leading_zeros, digits_only. split.
  - apply forallb_dropwhile, forallb_filter.
  - apply dropwhile_idem.
Qed.

Lemma normalize_steps_fixed (d : str) :
  forallb isdigit d = true -> strip_leading_zeros d = d ->
  ((10 <=? List.length d)%nat && negb (startswith (lit "55") d)) = false ->
  normalize_steps d = d.
Proof.
  intros Hd Hz Hc. unfold normalize_steps, digits_only.
  rewrite (filter_all _ _ Hd), Hz, Hc. reflexivity.
Qed.

Lemma normalize_steps_idempotent (raw : str) :
  normalize_steps (normalize_steps raw) = normalize_steps raw.
Proof.
  destruct (significant_digits raw) as [Hd Hz].
  set (d := strip_leading_zeros (digits_only raw)) in *.
  assert (E : normalize_steps raw =
              if (10 <=? List.length d)%nat && negb (startswith (lit "55") d)
              then lit "55" ++ d else d) by reflexivity.
  rewrite E.
  destruct ((10 <=? List.length d)%nat && negb (startswith (lit "55") d)) eqn:Hc.
  - assert (H5 : isdigit 53%N = true) by (rewrite isdigit_ascii; reflexivity).
    apply normalize_steps_fixed.
    + change (lit "55" ++ d) with (53%N :: 53%N :: d). simpl. now rewrite H5, Hd.
    + reflexivity.
    + rewrite startswith_app. simpl. apply andb_false_r.
  - now apply normalize_steps_fixed.
Qed.

End NormalizeFacts.

(** ** Appending to the ledger *)

Lemma csv_line_nonempty (fields : list str) : nonempty (csv_line fields) = true.
Proof.
  unfold csv_line. destruct (join (lit ",") (map csv_field fields)); reflexivity.
Qed.

Lemma nonempty_app_r (a b : str) : nonempty b = true -> nonempty (a ++ b) = true.
Proof. destruct a; simpl; [tauto | reflexivity]. Qed.

Lemma append_row_run (path : str) (linha : Z) (tel status : str) (http : Z) (d : json)
    (w : World) :
  append_row path linha tel status http d w =
  (Ok tt,
   write_text path
     (file_text (textfiles w path)
      ++ (if fresh (textfiles w path) then csv_line FIELDNAMES else [])
      ++ csv_line [str_of_int linha; tel; status; str_of_int http; json_dumps d]) w).
Proof.
  unfold append_row, bind, ask, effect, fresh, file_text.
  destruct (textfiles w path) as [s|]; reflexivity.
Qed.

Lemma str_eqb_refl (s : str) : str_eqb s s = true.
Proof. now apply str_eqb_eq. Qed.

Lemma textfiles_write_same (path data : str) (w : World) :
  textfiles (write_text path data w) path = Some data.
Proof. simpl. now rewrite str_eqb_refl. Qed.

Lemma textfiles_write_other (path data p : str) (w : World) :
  p <> path -> textfiles (write_text path data w) p = textfiles w p.
Proof.
  intros H. simpl. destruct (str_eqb p path) eqn:E; [|reflexivity].
  apply str_eqb_eq in E. contradiction.
Qed.

Lemma append_outcome_ledger (path : str) (o : Outcome) (w : World) :
  fst (append_outcome path o w) = Ok tt
  /\ textfiles (snd (append_outcome path o w)) path = ledger_with (textfiles w path) [o]
  /\ (forall p, p <> path -> textfiles (snd (append_outcome path o w)) p = textfiles w p).
Proof.
  unfold append_outcome. rewrite append_row_run. cbn [fst snd]. repeat split.
  - rewrite textfiles_write_same. unfold ledger_with, row_line. simpl flat_map.
    now rewrite app_nil_r.
  - intros p Hp. now apply textfiles_write_other.
Qed.

Lemma row_line_nonempty (o : Outcome) : nonempty (row_line o) = true.
Proof. apply csv_line_nonempty. Qed.

Lemma ledger_with_app (f : option str) (os os' : list Outcome) :
  ledger_with (ledger_with f os) os' = ledger_with f (os ++ os').
Proof.
  destruct os as [|o os]; [reflexivity|].
  destruct os' as [|o' os']; [now rewrite app_nil_r|].
  set (T := file_text f ++ (if fresh f then csv_line FIELDNAMES else [])
            ++ flat_map row_line (o :: os)).
  assert (N : nonempty T = true).
  { unfold T. apply nonempty_app_r, nonempty_app_r. cbn [flat_map].
    pose proof (row_line_nonempty o) as X.
    destruct (row_line o); [discriminate | reflexivity]. }
  change (ledger_with f (o :: os)) with (Some T).
  change (ledger_with (Some T) (o' :: os'))
    with (Some (T ++ (if negb (nonempty T) then csv_line FIELDNAMES else [])
                ++ flat_map row_line (o' :: os'))).
  rewrite N. cbn [negb]. change ([] ++ flat_map row_line (o' :: os'))
    with (flat_map row_line (o' :: os')).
  change (ledger_with f ((o :: os) ++ o' :: os'))
    with (Some (file_text f ++ (if fresh f then csv_line FIELDNAMES else [])
                ++ flat_map row_line ((o :: os) ++ o' :: os'))).
  unfold T. rewrite (flat_map_app row_line (o :: os)). now rewrite <- !app_assoc.
Qed.

Lemma append_all_ledger (path : str) (os : list Outcome) (w : World) :
  fst (append_all path os w) = Ok tt
  /\ textfiles (snd (append_all path os w)) path = ledger_with (textfiles w path) os
  /\ (forall p, p <> path -> textfiles (snd (append_all path os w)) p = textfiles w p).
Proof.
  revert w. induction os as [|o os IH]; intros w.
  - simpl. repeat split; reflexivity.
  - cbn [append_all]. unfold bind.
    destruct (append_outcome_ledger path o w) as (A1 & A2 & A3).
    destruct (append_outcome path o w) as [r w1]. cbn [fst snd] in *. subst r.
    destruct (IH w1) as (B1 & B2 & B3). repeat split.
    + exact B1.
    + rewrite B2, A2. apply (ledger_with_app _ [o] os).
    + intros p Hp. now rewrite B3, A3.
Qed.

(** ** The ledger through the strict encoder *)

Lemma header_is_encodable : utf8_error (csv_line FIELDNAMES) = None.
Proof. vm_compute. reflexivity. Qed.

(** One call: the header when it is due, then the record or the error of
    the encoder, and nothing else changes. *)
Lemma append_outcome_utf8_run (path : str) (o : Outcome) (w : World) :
  let start := file_text (textfiles w path)
               ++ (if fresh (textfiles w path) then csv_line FIELDNAMES else []) in
  let w' := snd (append_outcome_utf8 path o w) in
  match utf8_error (row_line o) with
  | None => fst (append_outcome_utf8 path o w) = Ok tt
            /\ textfiles w' path = Some (start ++ row_line o)
  | Some msg => fst (append_outcome_utf8 path o w) = Raise (UnicodeEncodeError msg)
                /\ textfiles w' path = Some start
  end
  /\ (forall p, p <> path -> textfiles w' p = textfiles w p)
  /\ images w' = images w /\ tables w' = tables w /\ net w' = net w
  /\ exchanges w' = exchanges w /\ trace w' = trace w.
Proof.
  intros start w'. subst start w'.
  unfold append_outcome_utf8, append_row_utf8, write_utf8, row_line, fresh, file_text.
  unfold bind, ask, effect, ret, raise.
  assert (F : forall (d : str) (p : str), p <> path ->
              (if str_eqb p path then Some d else textfiles w p) = textfiles w p).
  { intros d p Hp. destruct (str_eqb p path) eqn:E; [|reflexivity].
    apply str_eqb_eq in E. contradiction. }
  destruct (textfiles w path) as [[|c s]|] eqn:T; cbn [negb orb nonempty];
    rewrite ?header_is_encodable;
    destruct (utf8_error (csv_line [str_of_int (o_linha o); o_telefone o; o_status o;
                                    str_of_int (o_http o); json_dumps (o_detalhe o)]));
    cbn [fst snd textfiles images tables net exchanges trace write_text];
    rewrite ?str_eqb_refl; cbn [app]; rewrite ?app_nil_r, <- ?app_assoc;
    repeat split; auto; intros p Hp; rewrite ?F by exact Hp; reflexivity.
Qed.

Lemma append_outcome_utf8_encodable (path : str) (o : Outcome) (w : World) :
  encodable o = true ->
  fst (append_outcome_utf8 path o w) = Ok tt
  /\ textfiles (snd (append_outcome_utf8 path o w)) path = ledger_with (textfiles w path) [o]
  /\ (forall p, p <> path -> textfiles (snd (append_outcome_utf8 path o w)) p = textfiles w p).
Proof.
  intros H. destruct (append_outcome_utf8_run path o w) as (A & B & _).
  unfold encodable in H. destruct (utf8_error (row_line o)); [discriminate|].
  destruct A as [A1 A2]. repeat split; [exact A1 | | exact B].
  rewrite A2. unfold ledger_with. cbn [flat_map]. now rewrite app_nil_r, <- app_assoc.
Qed.

(** On records the encoder accepts, [append_row] is [append_row_utf8]. *)
Lemma append_row_utf8_encodable (path : str) (o : Outcome) (w : World) :
  encodable o = true ->
  fst (append_outcome_utf8 path o w) = fst (append_outcome path o w)
  /\ forall p, textfiles (snd (append_outcome_utf8 path o w)) p
               = textfiles (snd (append_outcome path o w)) p.
Proof.
  intros H. destruct (@append_outcome_utf8_encodable path o w H) as (A & B & C).
  destruct (append_outcome_ledger path o w) as (A' & B' & C').
  split; [now rewrite A, A'|]. intros p.
  destruct (str_eqb p path) eqn:E.
  - apply str_eqb_eq in E. subst p. now rewrite B, B'.
  - assert (p <> path) by (intros ->; rewrite str_eqb_refl in E; discriminate).
    now rewrite C, C'.
Qed.

Lemma append_all_utf8_ledger (path : str) (os : list Outcome) (w : World) :
  forallb encodable os = true ->
  fst (append_all_utf8 path os w) = Ok tt
  /\ textfiles (snd (append_all_utf8 path os w)) path = ledger_with (textfiles w path) os
  /\ (forall p, p <> path -> textfiles (snd (append_all_utf8 path os w)) p = textfiles w p).
Proof.
  revert w. induction os as [|o os IH]; intros w H.
  - simpl. repeat split; reflexivity.
  - cbn [forallb] in H. apply andb_true_iff in H as [Ho Hos].
    cbn [append_all_utf8]. unfold bind.
    destruct (@append_outcome_utf8_encodable path o w Ho) as (A1 & A2 & A3).
    destruct (append_outcome_utf8 path o w) as [r w1]. cbn [fst snd] in *. subst r.
    destruct (IH w1 Hos) as (B1 & B2 & B3). repeat split.
    + exact B1.
    + rewrite B2, A2. apply (ledger_with_app _ [o] os).
    + intros p Hp. now rewrite B3, A3.
Qed.

(** ** Sending *)

Section RunFacts.

Context {U : Unicode} {P : Pillow} {L : PathLib}.

Lemma http_error_msg_nonempty (r : Response) :
  nonempty (http_error_msg r) = is_error_status r.
Proof.
  unfold http_error_msg, is_error_status.
  destruct ((400 <=? status_code r) && (status_code r <? 500))%Z eqn:A.
  - apply andb_true_iff in A as [A1 A2]. rewrite A1.
    apply Z.ltb_lt in A2. replace (status_code r <? 600)%Z with true
      by (symmetry; apply Z.ltb_lt; lia).
    destruct (str_of_int (status_code r)); reflexivity.
  - destruct ((500 <=? status_code r) && (status_code r <? 600))%Z eqn:B.
    + apply andb_true_iff in B as [B1 B2]. rewrite B2.
      apply Z.leb_le in B1. replace (400 <=? status_code r)%Z with true
        by (symmetry; apply Z.leb_le; lia).
      destruct (str_of_int (status_code r)); reflexivity.
    + apply andb_false_iff in A. apply andb_false_iff in B.
      rewrite Z.leb_gt, Z.ltb_ge in A, B.
      symmetry. apply andb_false_iff. rewrite Z.leb_gt, Z.ltb_ge. lia.
Qed.

Lemma raise_for_status_run (r : Response) (w : World) :
  raise_for_status r w =
  if is_error_status r then (Raise (HTTPError (http_error_msg r) (Some r)), w)
  else (Ok tt, w).
Proof.
  unfold raise_for_status. rewrite http_error_msg_nonempty.
  destruct (is_error_status r); reflexivity.
Qed.

(** An acquisition logs itself and touches no file. *)
Lemma read_image_bytes_frame (src : str) (w : World) :
  same_files w (snd (read_image_bytes src w))
  /\ trace (snd (read_image_bytes src w)) = trace w ++ [ReadImage src].
Proof.
  unfold read_image_bytes, bind, effect, ask, requests_get, http_exchange.
  destruct (is_remote src).
  - cbn [net log_event exchanges].
    destruct (net w (exchanges w)) as [msg|r]; [split; [repeat split|reflexivity]|].
    rewrite raise_for_status_run.
    destruct (is_error_status r); split; try reflexivity; repeat split.
  - cbn [images unreadable log_event].
    destruct (images w src), (unreadable w src); split; try reflexivity; repeat split.
Qed.

(** What the part of the send after the acquisition does (source lines
    122-152), on the bytes acquired. *)
Lemma send_after_read (api token number sid text src : str) (fn : option str) (w : World) :
  forall raw w1, read_image_bytes src w = (Ok raw, w1) ->
  let jpg := ensure_jpeg_bytes raw in
  let w2 := tick (log_event (request_for api token number sid text src fn jpg) w1) in
  send_image_with_caption_base64 api token number sid text src fn w =
  if (len_bytes jpg >? MAX_BYTES)%Z
  then (Raise (ValueError (lit "Arquivo > 63MB (" ++ str_of_int (len_bytes jpg)
                           ++ lit " bytes)")), w1)
  else match net w1 (exchanges w1) with
       | NoResponse msg resp => (Raise (RequestError msg resp), w2)
       | Got r =>
           if is_error_status r
           then (Raise (HTTPError (http_error_msg r ++ lit " | body="
                                   ++ prefix 800 (resp_text r)) None), w2)
           else match body_json r with
                | Json v => (Ok v, w2)
                | NotJson msg => (Raise (JSONDecodeError msg), w2)
                end
       end.
Proof.
  intros raw w1 H jpg w2.
  unfold send_image_with_caption_base64. unfold bind at 1. rewrite H.
  fold jpg. destruct (len_bytes jpg >? MAX_BYTES)%Z; [reflexivity|].
  unfold requests_post, bind, effect, http_exchange, try_except.
  cbn [net log_event exchanges].
  destruct (net w1 (exchanges w1)) as [msg|r]; [reflexivity|].
  fold (request_for api token number sid text src fn jpg). fold w2.
  rewrite raise_for_status_run. destruct (is_error_status r).
  - reflexivity.
  - unfold response_json. destruct (body_json r); reflexivity.
Qed.

Lemma send_read_fails (api token number sid text src : str) (fn : option str) (w : World) :
  forall e w1, read_image_bytes src w = (Raise e, w1) ->
  send_image_with_caption_base64 api token number sid text src fn w = (Raise e, w1).
Proof.
  intros e w1 H. unfold send_image_with_caption_base64. unfold bind at 1.
  now rewrite H.
Qed.

(** A send reads the image once and posts at most once; it writes no file. *)
Lemma send_for_frame (cfg : Settings) (c : Contact) (w : World) :
  same_files w (snd (send_for cfg c w))
  /\ (trace (snd (send_for cfg c w)) = trace w ++ [ReadImage (IMAGE cfg)]
      \/ exists jpg, trace (snd (send_for cfg c w))
                     = trace w ++ [ReadImage (IMAGE cfg); request_of cfg c jpg]).
Proof.
  unfold send_for.
  destruct (read_image_bytes_frame (IMAGE cfg) w) as [F T].
  destruct (read_image_bytes (IMAGE cfg) w) as [[raw|e] w1] eqn:H; cbn [snd] in F, T.
  - rewrite send_after_read with (raw := raw) (w1 := w1) by exact H.
    set (jpg := ensure_jpeg_bytes raw).
    assert (R : trace (tick (log_event (request_of cfg c jpg) w1))
                = trace w ++ [ReadImage (IMAGE cfg); request_of cfg c jpg]).
    { cbn [trace tick log_event]. rewrite T, <- app_assoc. reflexivity. }
    assert (G : same_files w (tick (log_event (request_of cfg c jpg) w1))).
    { destruct F as (A & B & C & D). repeat split; assumption. }
    fold (request_of cfg c jpg).
    destruct (len_bytes jpg >? MAX_BYTES)%Z; [split; [exact F | left; exact T]|].
    destruct (net w1 (exchanges w1)) as [msg|r];
      [split; [exact G | right; exists jpg; exact R]|].
    destruct (is_error_status r); [split; [exact G | right; exists jpg; exact R]|].
    destruct (body_json r); split; try exact G; right; exists jpg; exact R.
  - rewrite send_read_fails with (e := e) (w1 := w1) by exact H.
    split; [exact F | left; exact T].
Qed.

Lemma iteration_run (cfg : Settings) (total i : nat) (c : Contact) (w : World) :
  iteration cfg total i c w = (Ok tt, after_turn cfg total i c (send_for cfg c w)).
Proof.
  unfold iteration, after_turn, append_outcome.
  unfold bind at 1. unfold try_except. unfold bind at 1. fold (send_for cfg c).
  destruct (send_for cfg c w) as [[resp|e] w1];
    cbn [fst snd outcome_of o_linha o_telefone o_status o_http o_detalhe];
    rewrite !append_row_run; cbn [snd];
    destruct (DELAY_positive cfg && (i <? total)%nat); reflexivity.
Qed.

(** One turn: one record for the contact, numbered [i]; one acquisition; at
    most one request. *)
Lemma iteration_effect (cfg : Settings) (total i : nat) (c : Contact) (w : World) :
  let r := fst (send_for cfg c w) in
  let w' := snd (iteration cfg total i c w) in
  textfiles w' LEDGER = ledger_with (textfiles w LEDGER) [outcome_of i (telefone c) r]
  /\ (forall p, p <> LEDGER -> textfiles w' p = textfiles w p)
  /\ images w' = images w /\ tables w' = tables w /\ net w' = net w
  /\ exists evs, trace w' = trace w ++ ReadImage (IMAGE cfg) :: evs
       /\ filter is_read evs = []
       /\ (filter is_post evs = []
           \/ exists jpg, filter is_post evs = [request_of cfg c jpg]).
Proof.
  intros r w'. subst r w'. rewrite iteration_run. cbn [snd]. unfold after_turn.
  destruct (send_for_frame cfg c w) as [(A & B & C & D) T].
  destruct (append_outcome_ledger LEDGER
              (outcome_of i (telefone c) (fst (send_for cfg c w)))
              (snd (send_for cfg c w))) as (_ & E1 & E2).
  set (w2 := snd (append_outcome LEDGER _ (snd (send_for cfg c w)))) in *.
  assert (I2 : images w2 = images w /\ tables w2 = tables w /\ net w2 = net w
               /\ trace w2 = trace (snd (send_for cfg c w))).
  { unfold w2, append_outcome. rewrite append_row_run. cbn [snd].
    repeat split; assumption. }
  destruct I2 as (I & Tb & Nt & Tr).
  assert (X : textfiles w2 LEDGER
              = ledger_with (textfiles w LEDGER)
                  [outcome_of i (telefone c) (fst (send_for cfg c w))]).
  { rewrite E1. now rewrite C. }
  assert (Y : forall p, p <> LEDGER -> textfiles w2 p = textfiles w p).
  { intros p Hp. rewrite (E2 p Hp). now rewrite C. }
  destruct (DELAY_positive cfg && (i <? total)%nat);
    cbn [textfiles images tables net trace log_event];
    (split; [exact X|]); (split; [exact Y|]);
    (split; [exact I|]); (split; [exact Tb|]); (split; [exact Nt|]);
    rewrite Tr; destruct T as [T|[jpg T]]; rewrite T.
  - exists [Sleep]. rewrite <- app_assoc. repeat split. now left.
  - exists [request_of cfg c jpg; Sleep]. rewrite <- app_assoc.
    repeat split. right. now exists jpg.
  - exists []. repeat split. now left.
  - exists [request_of cfg c jpg]. repeat split. right. now exists jpg.
Qed.

Lemma not_fresh_after_header (f : option str) :
  fresh (Some (file_text f ++ (if fresh f then csv_line FIELDNAMES else []))) = false.
Proof. destruct f as [[|c s]|]; reflexivity. Qed.

(** The strict turn, step by step. *)
Lemma iteration_utf8_run (cfg : Settings) (total i : nat) (c : Contact) (w : World) :
  iteration_utf8 cfg total i c w
  = let pause := if DELAY_positive cfg && (i <? total)%nat
                 then effect (log_event Sleep) else ret tt in
    let written :=
      match send_for cfg c w with
      | (Ok resp, w1) =>
          match append_outcome_utf8 LEDGER (outcome_of i (telefone c) (Ok resp)) w1 with
          | (Ok u, w2) => (Ok u, w2)
          | (Raise e, w2) =>
              append_outcome_utf8 LEDGER (outcome_of i (telefone c) (Raise e)) w2
          end
      | (Raise e, w1) =>
          append_outcome_utf8 LEDGER (outcome_of i (telefone c) (Raise e)) w1
      end in
    match written with
    | (Ok _, w3) => pause w3
    | (Raise e, w3) => (Raise e, w3)
    end.
Proof.
  unfold iteration_utf8, send_for, append_outcome_utf8, outcome_of, bind, try_except.
  cbn [o_linha o_telefone o_status o_http o_detalhe].
  destruct (send_image_with_caption_base64 (API_V1 cfg) (TOKEN cfg) (telefone c)
              (SRVID cfg) (TEXT cfg) (IMAGE cfg) None w) as [[resp|e] w1];
    [destruct (append_row_utf8 LEDGER (Z.of_nat i) (telefone c) (lit "ENVIADO") 200
                 (JObj [(lit "resp", resp)]) w1) as [[[]|e] w2]|];
    reflexivity.
Qed.

(** One turn through the strict encoder: the record of the send when the
    encoder accepts it; and when it refuses the record of a send that went
    through, the record of that refusal. *)
Lemma iteration_utf8_ledger (cfg : Settings) (total i : nat) (c : Contact) (w : World) :
  let r := fst (send_for cfg c w) in
  let w' := snd (iteration_utf8 cfg total i c w) in
  (encodable (outcome_of i (telefone c) r) = true ->
   textfiles w' LEDGER = ledger_with (textfiles w LEDGER) [outcome_of i (telefone c) r])
  /\ (forall resp msg,
        r = Ok resp ->
        utf8_error (row_line (outcome_of i (telefone c) r)) = Some msg ->
        encodable (outcome_of i (telefone c) (Raise (UnicodeEncodeError msg))) = true ->
        textfiles w' LEDGER
        = ledger_with (textfiles w LEDGER)
            [outcome_of i (telefone c) (Raise (UnicodeEncodeError msg))]).
Proof.
  intros r w'. subst r w'.
  destruct (send_for_frame cfg c w) as [(_ & _ & C & _) _].
  rewrite iteration_utf8_run. cbv zeta.
  assert (Pause : forall w3 : World,
            textfiles (snd ((if DELAY_positive cfg && (i <? total)%nat
                             then effect (log_event Sleep) else ret tt) w3))
            = textfiles w3).
  { intros w3. destruct (DELAY_positive cfg && (i <? total)%nat); reflexivity. }
  destruct (send_for cfg c w) as [[resp|e] w1]; cbn [fst snd] in *.
  - pose proof (append_outcome_utf8_run LEDGER (outcome_of i (telefone c) (Ok resp)) w1) as R.
    cbv zeta in R. rewrite C in R.
    destruct (append_outcome_utf8 LEDGER (outcome_of i (telefone c) (Ok resp)) w1)
      as [r1 w2]. cbn [fst snd] in R.
    unfold encodable at 1.
    destruct (utf8_error (row_line (outcome_of i (telefone c) (Ok resp)))) as [m|].
    + destruct R as ((R1 & R2) & _). subst r1. split; [discriminate|].
      intros resp' msg _ M E. injection M as <-.
      destruct (@append_outcome_utf8_encodable LEDGER _ w2 E) as (A1 & A2 & _).
      destruct (append_outcome_utf8 LEDGER
                  (outcome_of i (telefone c) (Raise (UnicodeEncodeError m))) w2)
        as [r2 w3]. cbn [fst snd] in A1, A2. subst r2.
      rewrite Pause, A2, R2. unfold ledger_with at 1.
      rewrite not_fresh_after_header. unfold ledger_with, file_text at 1.
      now rewrite <- !app_assoc.
    + destruct R as ((R1 & R2) & _). subst r1. split.
      * intros _. rewrite Pause, R2. unfold ledger_with. cbn [flat_map].
        now rewrite app_nil_r, <- app_assoc.
      * intros resp' msg _ M. discriminate.
  - split; [|intros resp msg H; discriminate].
    intros E.
    destruct (@append_outcome_utf8_encodable LEDGER _ w1 E) as (A1 & A2 & _).
    destruct (append_outcome_utf8 LEDGER (outcome_of i (telefone c) (Raise e)) w1)
      as [r2 w3]. cbn [fst snd] in A1, A2. subst r2. rewrite C in A2.
    now rewrite Pause.
Qed.

(** With a record that the encoder accepts, the strict turn leaves the
    ledger that [iteration] leaves. *)
Lemma iteration_utf8_encodable (cfg : Settings) (total i : nat) (c : Contact) (w : World) :
  encodable (outcome_of i (telefone c) (fst (send_for cfg c w))) = true ->
  textfiles (snd (iteration_utf8 cfg total i c w)) LEDGER
  = textfiles (snd (iteration cfg total i c w)) LEDGER.
Proof.
  intros H. destruct (iteration_utf8_ledger cfg total i c w) as (A & _).
  destruct (iteration_effect cfg total i c w) as (B & _).
  cbv zeta in A, B. now rewrite (A H), B.
Qed.

Lemma outcome_of_linha (i : nat) (tel : str) (r : result json) :
  o_linha (outcome_of i tel r) = Z.of_nat i.
Proof. destruct r; reflexivity. Qed.

Lemma outcome_of_telefone (i : nat) (tel : str) (r : result json) :
  o_telefone (outcome_of i tel r) = tel.
Proof. destruct r; reflexivity. Qed.

Lemma outcomes_index (cs : list Contact) :
  forall i rs, List.length rs = List.length cs ->
  List.length (outcomes i cs rs) = List.length cs
  /\ map o_linha (outcomes i cs rs) = map Z.of_nat (seq i (List.length cs))
  /\ map o_telefone (outcomes i cs rs) = map telefone cs.
Proof.
  induction cs as [|c cs IH]; intros i [|r rs] H; try discriminate.
  - repeat split.
  - injection H as H. destruct (IH (S i) rs H) as (A & B & C).
    cbn [outcomes map seq List.length].
    rewrite A, B, C, outcome_of_linha, outcome_of_telefone. repeat split.
Qed.

(** The whole loop: one record per contact, in order, and nothing else
    written; one acquisition per contact; every request is the one built for
    a contact of the run. *)
Lemma dispatch_from_effect (cfg : Settings) (total : nat) (cs : list Contact) :
  forall i w,
  fst (dispatch_from cfg total i cs w) = Ok tt
  /\ exists rs evs,
       let w' := snd (dispatch_from cfg total i cs w) in
       List.length rs = List.length cs
       /\ textfiles w' LEDGER = ledger_with (textfiles w LEDGER) (outcomes i cs rs)
       /\ (forall p, p <> LEDGER -> textfiles w' p = textfiles w p)
       /\ images w' = images w /\ tables w' = tables w /\ net w' = net w
       /\ trace w' = trace w ++ evs
       /\ filter is_read evs = repeat (ReadImage (IMAGE cfg)) (List.length cs)
       /\ Forall (fun ev => exists c jpg, In c cs /\ ev = request_of cfg c jpg)
            (filter is_post evs).
Proof.
  induction cs as [|c cs IH]; intros i w.
  - split; [reflexivity|]. exists [], []. cbn.
    rewrite app_nil_r. repeat split. constructor.
  - pose proof (iteration_effect cfg total i c w) as E.
    rewrite iteration_run in E. cbn [snd] in E.
    set (w1 := after_turn cfg total i c (send_for cfg c w)) in *.
    assert (EQ : dispatch_from cfg total i (c :: cs) w
                 = dispatch_from cfg total (S i) cs w1).
    { cbn [dispatch_from]. unfold bind. now rewrite iteration_run. }
    rewrite EQ.
    destruct E as (E1 & E2 & E3 & E4 & E5 & evs1 & E6 & E7 & E8).
    destruct (IH (S i) w1) as (R & rs & evs & L1 & L2 & L3 & L4 & L5 & L6 & L7 & L8 & L9).
    split; [exact R|].
    exists (fst (send_for cfg c w) :: rs), (ReadImage (IMAGE cfg) :: evs1 ++ evs).
    cbn zeta. repeat split.
    + cbn [List.length]. now rewrite L1.
    + rewrite L2, E1. cbn [outcomes].
      apply (ledger_with_app _ [outcome_of i (telefone c) (fst (send_for cfg c w))]).
    + intros p Hp. now rewrite L3, E2.
    + now rewrite L4.
    + now rewrite L5.
    + now rewrite L6.
    + rewrite L7, E6, <- app_assoc. reflexivity.
    + cbn [filter is_read List.length repeat]. rewrite filter_app, E7, L8. reflexivity.
    + cbn [filter is_post]. rewrite filter_app. apply Forall_app. split.
      * destruct E8 as [E8|[jpg E8]]; rewrite E8; [constructor|].
        constructor; [|constructor]. exists c, jpg. split; [now left | reflexivity].
      * eapply Forall_impl; [|exact L9]. intros ev (c' & jpg & Hin & ->).
        exists c', jpg. split; [now right | reflexivity].
Qed.

(** ** Stripping *)

Lemma rstrip_cons (c : char) (s : str) :
  isspace c = false -> rstrip (c :: s) = c :: rstrip s.
Proof.
  intros H. unfold rstrip. cbn [rev].
  rewrite dropwhile_snoc by exact H. rewrite rev_app_distr. reflexivity.
Qed.

Lemma strip_idempotent (s : str) : strip (strip s) = strip s.
Proof.
  unfold strip.
  assert (H : lstrip (rstrip (lstrip s)) = rstrip (lstrip s)).
  { unfold lstrip at 2 3. pose proof (dropwhile_head isspace s) as Hd.
    destruct (dropwhile isspace s) as [|c t]; [reflexivity|].
    rewrite rstrip_cons by exact Hd. unfold lstrip. cbn [dropwhile]. now rewrite Hd. }
  rewrite H. unfold rstrip. now rewrite rev_involutive, dropwhile_idem.
Qed.

(** ** ASCII input reads the same under every character service *)

Lemma forallb_rev (p : char -> bool) (s : str) : forallb p (rev s) = forallb p s.
Proof.
  induction s as [|c s IH]; [reflexivity|].
  cbn [rev forallb]. rewrite forallb_app, IH. cbn [forallb].
  rewrite andb_true_r. apply andb_comm.
Qed.

Lemma dropwhile_ext_ascii (p q : char -> bool) (s : str) :
  (forall c, is_ascii c = true -> p c = q c) ->
  forallb is_ascii s = true -> dropwhile p s = dropwhile q s.
Proof.
  intros E. induction s as [|c s IH]; [reflexivity|].
  cbn [forallb dropwhile]. intros H. apply andb_true_iff in H as [Hc Hs].
  rewrite (E c Hc), (IH Hs). reflexivity.
Qed.

Lemma isspace_latin1 (c : char) :
  is_ascii c = true -> isspace c = isspace (Unicode := latin1) c.
Proof.
  intros H. rewrite (isspace_ascii c H). symmetry. exact (latin1_isspace_ascii c H).
Qed.

Lemma strip_ascii (s : str) :
  forallb is_ascii s = true ->
  strip s = strip (U := latin1) s /\ forallb is_ascii (strip s) = true.
Proof.
  intros H. unfold strip, rstrip, lstrip.
  assert (A : forallb is_ascii (dropwhile isspace s) = true)
    by now apply forallb_dropwhile.
  rewrite (@dropwhile_ext_ascii _ _ s isspace_latin1 H) in *.
  assert (B : forallb is_ascii (rev (dropwhile (isspace (Unicode := latin1)) s)) = true)
    by now rewrite forallb_rev.
  split.
  - now rewrite (@dropwhile_ext_ascii _ _ _ isspace_latin1 B).
  - rewrite forallb_rev. now apply forallb_dropwhile.
Qed.

Lemma normalize_phone_ascii (raw : str) :
  forallb is_ascii raw = true ->
  normalize_phone raw = normalize_phone (U := latin1) raw.
Proof.
  intros H. rewrite normalize_phone_unfold, (normalize_phone_unfold (U := latin1)).
  unfold normalize_steps, digits_only.
  now rewrite (@digits_of_literal U _ H), (@digits_of_literal latin1 _ H).
Qed.

Lemma clean_header_ascii (h : str) :
  forallb is_ascii h = true -> clean_header h = clean_header (U := latin1) h.
Proof.
  intros H. unfold clean_header. destruct (strip_ascii h H) as [E A].
  rewrite (@lower_ascii U _ A). rewrite E in *.
  now rewrite (@lower_ascii latin1 _ A).
Qed.

Lemma ascii_row_nth (line : list str) (n : nat) :
  ascii_row line = true -> forallb is_ascii (nth n line []) = true.
Proof.
  revert n. induction line as [|x line IH]; intros [|n] H; try reflexivity;
    cbn [ascii_row forallb] in H; apply andb_true_iff in H as [Hx Hl].
  - exact Hx.
  - now apply IH.
Qed.

Lemma collect_rows_ascii (idx_tel : nat) (idx_nome : option nat) (lines : list (list str)) :
  forallb ascii_row lines = true ->
  collect_rows idx_tel idx_nome lines = collect_rows (U := latin1) idx_tel idx_nome lines.
Proof.
  induction lines as [|line rest IH]; [reflexivity|].
  cbn [forallb collect_rows]. intros H. apply andb_true_iff in H as [Hl Hr].
  rewrite (IH Hr).
  assert (T : normalize_phone (if (idx_tel <? List.length line)%nat
                               then nth idx_tel line [] else [])
              = normalize_phone (U := latin1)
                  (if (idx_tel <? List.length line)%nat then nth idx_tel line [] else [])).
  { apply normalize_phone_ascii.
    destruct (idx_tel <? List.length line)%nat; [now apply ascii_row_nth | reflexivity]. }
  rewrite T.
  assert (Nm : match idx_nome with
               | Some j => if (j <? List.length line)%nat then strip (nth j line []) else []
               | None => []
               end
               = match idx_nome with
                 | Some j => if (j <? List.length line)%nat
                             then strip (U := latin1) (nth j line []) else []
                 | None => []
                 end).
  { destruct idx_nome as [j|]; [|reflexivity].
    destruct (j <? List.length line)%nat; [|reflexivity].
    apply strip_ascii. now apply ascii_row_nth. }
  rewrite Nm. reflexivity.
Qed.

Lemma load_contacts_ascii (table : list (list str)) :
  forallb ascii_row table = true ->
  load_contacts_csv table = load_contacts_csv (U := latin1) table.
Proof.
  intros H. unfold load_contacts_csv.
  assert (Hh : map clean_header (hd [] table)
               = map (clean_header (U := latin1)) (hd [] table)).
  { destruct table as [|h t]; [reflexivity|]. cbn [hd].
    cbn [forallb] in H. apply andb_true_iff in H as [Hh _].
    induction h as [|x h IH]; [reflexivity|].
    cbn [ascii_row forallb] in Hh. apply andb_true_iff in Hh as [Hx Hh].
    cbn [map]. rewrite (@clean_header_ascii x Hx). f_equal. now apply IH. }
  rewrite Hh.
  destruct (first_index _ (map (clean_header (U := latin1)) (hd [] table)) 0); [|reflexivity].
  rewrite collect_rows_ascii; [reflexivity|].
  destruct table as [|h t]; [reflexivity|].
  cbn [forallb] in H. apply andb_true_iff in H as [_ Ht]. exact Ht.
Qed.

(** ** Loading the contacts *)

Lemma collect_rows_filter (idx_tel : nat) (idx_nome : option nat) (lines : list (list str)) :
  collect_rows idx_tel idx_nome lines
  = map (contact_of idx_tel idx_nome) (filter (kept idx_tel) lines).
Proof.
  induction lines as [|line rest IH]; [reflexivity|].
  cbn [collect_rows filter]. unfold kept at 1, phone_of, cell.
  destruct (existsb nonempty line); cbn [negb andb]; [|exact IH].
  fold (cell idx_tel line). fold (phone_of idx_tel line).
  destruct (nonempty (phone_of idx_tel line)); [|exact IH].
  cbn [map]. rewrite IH. reflexivity.
Qed.

Lemma nonempty_true (s : str) : nonempty s = true <-> s <> [].
Proof. destruct s; simpl; split; congruence. Qed.

Lemma collect_rows_phones (idx_tel : nat) (idx_nome : option nat) (lines : list (list str)) :
  Forall (fun c => telefone c <> []) (collect_rows idx_tel idx_nome lines).
Proof.
  rewrite collect_rows_filter. apply Forall_map, Forall_forall.
  intros line Hin. apply filter_In in Hin as [_ Hk].
  unfold kept in Hk. apply andb_true_iff in Hk as [_ Hk].
  now apply nonempty_true.
Qed.

(** ** An image over the limit *)

Lemma read_local_image (src : str) (raw : bytes) (w : World) :
  is_remote src = false -> images w src = Some raw ->
  read_image_bytes src w = (Ok raw, log_event (ReadImage src) w).
Proof.
  intros R I.
  unfold read_image_bytes, bind, effect, ask. rewrite R.
  cbn [images log_event]. now rewrite I.
Qed.

Lemma send_for_too_large (cfg : Settings) (c : Contact) (w : World) (raw : bytes) (w1 : World) :
  read_image_bytes (IMAGE cfg) w = (Ok raw, w1) ->
  (len_bytes (ensure_jpeg_bytes raw) > MAX_BYTES)%Z ->
  send_for cfg c w = (Raise (too_large (len_bytes (ensure_jpeg_bytes raw))), w1).
Proof.
  intros H Hl. unfold send_for.
  rewrite send_after_read with (raw := raw) (w1 := w1) by exact H.
  replace (len_bytes (ensure_jpeg_bytes raw) >? MAX_BYTES)%Z with true
    by (symmetry; apply Z.gtb_lt; lia).
  reflexivity.
Qed.

(** With a local image over the limit every turn fails the same way and
    nothing is posted. *)
Lemma dispatch_from_too_large (cfg : Settings) (total : nat) (raw : bytes)
    (cs : list Contact) :
  is_remote (IMAGE cfg) = false ->
  (len_bytes (ensure_jpeg_bytes raw) > MAX_BYTES)%Z ->
  forall i w, images w (IMAGE cfg) = Some raw ->
  let w' := snd (dispatch_from cfg total i cs w) in
  fst (dispatch_from cfg total i cs w) = Ok tt
  /\ textfiles w' LEDGER
     = ledger_with (textfiles w LEDGER)
         (outcomes i cs
            (repeat (Raise (too_large (len_bytes (ensure_jpeg_bytes raw))))
                    (List.length cs)))
  /\ exists evs, trace w' = trace w ++ evs /\ filter is_post evs = [].
Proof.
  intros R Hl. induction cs as [|c cs IH]; intros i w I.
  - cbn. repeat split. exists []. now rewrite app_nil_r.
  - pose proof (iteration_effect cfg total i c w) as E.
    rewrite iteration_run in E. cbn [snd] in E.
    assert (S1 : send_for cfg c w
                 = (Raise (too_large (len_bytes (ensure_jpeg_bytes raw))),
                    log_event (ReadImage (IMAGE cfg)) w)).
    { apply send_for_too_large; [|exact Hl]. now apply read_local_image. }
    assert (EQ : dispatch_from cfg total i (c :: cs) w
                 = dispatch_from cfg total (S i) cs
                     (after_turn cfg total i c (send_for cfg c w))).
    { cbn [dispatch_from]. unfold bind. now rewrite iteration_run. }
    cbn zeta. rewrite EQ.
    set (w1 := after_turn cfg total i c (send_for cfg c w)) in *.
    destruct E as (E1 & _ & E3 & _ & _ & _).
    assert (T1 : exists evs1, trace w1 = trace w ++ evs1 /\ filter is_post evs1 = []).
    { unfold w1, after_turn. rewrite S1. cbn [fst snd].
      unfold append_outcome. rewrite append_row_run. cbn [snd].
      destruct (DELAY_positive cfg && (i <? total)%nat); cbn [trace log_event write_text].
      - exists [ReadImage (IMAGE cfg); Sleep]. now rewrite <- app_assoc.
      - now exists [ReadImage (IMAGE cfg)]. }
    destruct T1 as (evs1 & T1 & P1).
    assert (I1 : images w1 (IMAGE cfg) = Some raw) by now rewrite E3.
    destruct (IH (S i) w1 I1) as (A & B & evs & C & D).
    split; [exact A|]. split.
    + rewrite B, E1, S1. cbn [fst List.length repeat outcomes].
      apply (ledger_with_app _ [_]).
    + exists (evs1 ++ evs). rewrite C, T1, <- app_assoc, filter_app, P1, D.
      now split.
Qed.

Lemma outcomes_all_raise (e : exn) (cs : list Contact) :
  forall i, outcomes i cs (repeat (Raise e) (List.length cs)) = failed_rows e i cs.
Proof.
  unfold failed_rows. induction cs as [|c cs IH]; intros i; [reflexivity|].
  cbn [List.length repeat outcomes seq combine map outcome_of fst snd].
  now rewrite IH.
Qed.

Lemma posts_of_extension (w w' : World) :
  (exists evs, trace w' = trace w ++ evs /\ filter is_post evs = []) ->
  filter is_post (trace w') = filter is_post (trace w).
Proof. intros (evs & -> & H). now rewrite filter_app, H, app_nil_r. Qed.

Lemma dispatch_all_too_large (cfg : Settings) (raw : bytes) (cs : list Contact) (w : World) :
  is_remote (IMAGE cfg) = false -> images w (IMAGE cfg) = Some raw ->
  (len_bytes (ensure_jpeg_bytes raw) > MAX_BYTES)%Z ->
  fst (dispatch_all cfg cs w) = Ok tt
  /\ textfiles (snd (dispatch_all cfg cs w)) LEDGER
     = ledger_with (textfiles w LEDGER)
         (failed_rows (too_large (len_bytes (ensure_jpeg_bytes raw))) 1 cs)
  /\ filter is_post (trace (snd (dispatch_all cfg cs w))) = filter is_post (trace w).
Proof.
  intros R I Hl.
  destruct (dispatch_from_too_large cfg (List.length cs) cs R Hl 1 w I) as (A & B & C).
  split; [exact A|]. split.
  - unfold dispatch_all. rewrite B. now rewrite outcomes_all_raise.
  - now apply posts_of_extension.
Qed.

(** A successful send returns the parsed body of an answer of the network. *)
Lemma send_for_ok (cfg : Settings) (c : Contact) (w : World) (resp : json) :
  fst (send_for cfg c w) = Ok resp ->
  exists n r, net w n = Got r /\ is_error_status r = false /\ body_json r = Json resp.
Proof.
  unfold send_for. intros H.
  destruct (read_image_bytes_frame (IMAGE cfg) w) as [(_ & _ & _ & N) _].
  destruct (read_image_bytes (IMAGE cfg) w) as [[raw|e] w1] eqn:R; cbn [snd] in N.
  - rewrite send_after_read with (raw := raw) (w1 := w1) in H by exact R.
    destruct (len_bytes (ensure_jpeg_bytes raw) >? MAX_BYTES)%Z; [discriminate|].
    destruct (net w1 (exchanges w1)) as [msg|r] eqn:G; [discriminate|].
    destruct (is_error_status r) eqn:S; [discriminate|].
    destruct (body_json r) as [msg|v] eqn:B; [discriminate|].
    cbn [fst] in H. injection H as ->.
    exists (exchanges w1), r. rewrite <- N. auto.
  - rewrite send_read_fails with (e := e) (w1 := w1) in H by exact R. discriminate.
Qed.

(** ** The file name of the attachment *)

Lemma lower_keeps_jpg (s : str) : endswith (lit ".jpg") (lower (s ++ lit ".jpg")) = true.
Proof.
  destruct (lower_ascii_tail s (lit ".jpg") eq_refl) as [s' E]. rewrite E.
  apply (endswith_app (lit ".jpg") s').
Qed.

Lemma file_name_cases (img_src : str) (filename : option str) :
  let name := base_name img_src filename in
  let kept_as_is := endswith (lit ".jpg") (lower name) || endswith (lit ".jpeg") (lower name) in
  file_name img_src filename = if kept_as_is then name else path_stem name ++ lit ".jpg".
Proof. reflexivity. Qed.

End RunFacts.

(** ** The main block reaches the loop *)

Section MainFacts.

Context {U : Unicode} {P : Pillow} {L : PathLib}.

Lemma dispatch_all_ends (cfg : Settings) (cs : list Contact) (w : World) :
  dispatch_all cfg cs w = (Ok tt, snd (dispatch_all cfg cs w)).
Proof.
  destruct (dispatch_from_effect cfg (List.length cs) cs 1 w) as (A & _).
  unfold dispatch_all. destruct (dispatch_from _ _ _ _ _) as [r w'].
  cbn [fst snd] in *. now subst r.
Qed.

Lemma main_dispatches (getenv : str -> option str) (delay_positive : bool) (args : Args)
    (w : World) (table : list (list str)) (rows : list Contact) :
  let cfg := settings_of getenv delay_positive in
  nonempty (API_V1 cfg) = true -> nonempty (TOKEN cfg) = true ->
  nonempty (SRVID cfg) = true ->
  is_remote (IMAGE cfg) = true \/ images w (IMAGE cfg) <> None ->
  tables w (arg_file args) = Some table ->
  load_contacts_csv table = Loaded rows ->
  main getenv delay_positive args w
  = (Finished, snd (dispatch_all cfg (apply_limit (arg_limit args) rows) w)).
Proof.
  intros cfg A T S I Tb Ld. unfold main. fold cfg. rewrite A, T, S. cbn [negb orb].
  assert (G : negb (is_remote (IMAGE cfg)) && negb (path_exists w (IMAGE cfg)) = false).
  { destruct I as [I|I]; [now rewrite I|]. unfold path_exists.
    destruct (images w (IMAGE cfg)); [apply andb_false_r | contradiction]. }
  rewrite G, Tb, Ld. now rewrite dispatch_all_ends.
Qed.

End MainFacts.

(** ** Where the status code of a failure goes *)

Section StatusCode.

Context {U : Unicode} {P : Pillow} {L : PathLib}.

(** A request answered with an error status is re-raised without the
    response (source line 151), so the handler of the loop finds no status
    code. *)
Lemma rejected_post_has_no_code (cfg : Settings) (c : Contact) (w : World)
    (raw : bytes) (w1 : World) (r : Response) :
  read_image_bytes (IMAGE cfg) w = (Ok raw, w1) ->
  (len_bytes (ensure_jpeg_bytes raw) >? MAX_BYTES)%Z = false ->
  net w1 (exchanges w1) = Got r -> is_error_status r = true ->
  let e := HTTPError (http_error_msg r ++ lit " | body=" ++ prefix 800 (resp_text r)) None in
  fst (send_for cfg c w) = Raise e /\ code_of e = 0%Z.
Proof.
  intros H Hl N S e. split; [|reflexivity]. unfold send_for.
  rewrite send_after_read with (raw := raw) (w1 := w1) by exact H.
  now rewrite Hl, N, S.
Qed.

(** The same failure while fetching a remote image keeps the response
    (source line 34), and with it the status code. *)
Lemma rejected_fetch_keeps_code (src : str) (w : World) (r : Response) :
  is_remote src = true -> net w (exchanges w) = Got r -> is_error_status r = true ->
  let e := HTTPError (http_error_msg r) (Some r) in
  fst (read_image_bytes src w) = Raise e /\ code_of e = int_or_zero (status_code r).
Proof.
  intros R N S. split; [|reflexivity].
  unfold read_image_bytes, bind, effect, ask, requests_get, http_exchange. rewrite R.
  cbn [net log_event exchanges]. rewrite N, raise_for_status_run, S. reflexivity.
Qed.

End StatusCode.

(** * The claims of the specification *)

Section Claims.

Context {U : Unicode} {P : Pillow} {L : PathLib}.

(** C4.  On text made of ASCII characters [normalize_phone] is the rule of
    the specification: it keeps the digits 0 to 9 only, drops the leading
    zeros and puts 55 in front exactly when at least ten digits remain and
    they do not already begin with 55; it maps 0031999998888 to
    5531999998888, +55 11 91234-5678 to 5511912345678 and abc to the empty
    string.  Outside ASCII the code departs from the rule, because
    [str.isdigit] accepts more than 0 to 9: the ten digits 1199999000
    followed by a superscript two (code point 178) come back with 55 in
    front and the superscript two still in place, where the rule gives
    551199999000. *)
Theorem C4_normalize_phone_keeps_superscript_digit :
  (forall raw, forallb is_ascii raw = true -> normalize_phone raw = normalize raw)
  /\ normalize_phone (lit "0031999998888") = lit "5531999998888"
  /\ normalize_phone (lit "+55 11 91234-5678") = lit "5511912345678"
  /\ normalize_phone (lit "abc") = []
  /\ normalize_phone (U := latin1) (lit "1199999000" ++ [178%N])
     = lit "551199999000" ++ [178%N]
  /\ normalize (lit "1199999000" ++ [178%N]) = lit "551199999000".
Proof.
  split.
  { intros raw H. rewrite normalize_phone_unfold.
    unfold normalize_steps, normalize, digits_only, strip_leading_zeros.
    now rewrite (digits_of_literal _ H). }
  repeat split; try (rewrite normalize_phone_ascii by reflexivity);
    vm_compute; reflexivity.
Qed.

(** C9.  Normalizing a normalized phone changes nothing. *)
Theorem C9_normalize_phone_idempotent (s : str) :
  normalize_phone (normalize_phone s) = normalize_phone s.
Proof. rewrite !normalize_phone_unfold. apply normalize_steps_idempotent. Qed.

(** C6, amended.  Appending records to one ledger path.  A call first adds
    the header, when the file is absent or empty; then it adds exactly one
    record line when the record is text that UTF-8 can encode, and otherwise
    it adds no record line and ends with the error of the encoder.  A run of
    calls with such records on an absent or empty file leaves the header
    once, followed by the records; on a file that has content no header is
    written at all. *)
Theorem C6_header_written_once (path : str) (w : World) :
  (forall o,
      encodable o = true ->
      fst (append_outcome_utf8 path o w) = Ok tt
      /\ textfiles (snd (append_outcome_utf8 path o w)) path
         = Some (file_text (textfiles w path)
                 ++ (if fresh (textfiles w path) then csv_line FIELDNAMES else [])
                 ++ row_line o))
  /\ (forall o msg,
        utf8_error (row_line o) = Some msg ->
        fst (append_outcome_utf8 path o w) = Raise (UnicodeEncodeError msg)
        /\ textfiles (snd (append_outcome_utf8 path o w)) path
           = Some (file_text (textfiles w path)
                   ++ (if fresh (textfiles w path) then csv_line FIELDNAMES else [])))
  /\ (forall o os,
        forallb encodable (o :: os) = true ->
        fresh (textfiles w path) = true ->
        textfiles (snd (append_all_utf8 path (o :: os) w)) path
        = Some (csv_line FIELDNAMES ++ flat_map row_line (o :: os)))
  /\ (forall s os,
        forallb encodable os = true ->
        textfiles w path = Some s -> s <> [] ->
        textfiles (snd (append_all_utf8 path os w)) path
        = Some (s ++ flat_map row_line os)).
Proof.
  split; [|split; [|split]].
  - intros o H. destruct (append_outcome_utf8_run path o w) as (A & _).
    unfold encodable in H. destruct (utf8_error (row_line o)); [discriminate|].
    destruct A as [A1 A2]. split; [exact A1|]. rewrite A2. now rewrite <- app_assoc.
  - intros o msg H. destruct (append_outcome_utf8_run path o w) as (A & _).
    rewrite H in A. exact A.
  - intros o os E F. destruct (@append_all_utf8_ledger path (o :: os) w E) as (_ & A & _).
    rewrite A. unfold ledger_with. rewrite F.
    destruct (textfiles w path) as [[|c s]|]; try discriminate; reflexivity.
  - intros s os H E N. destruct (@append_all_utf8_ledger path os w H) as (_ & A & _).
    rewrite A, E. destruct os as [|o os].
    + cbn. now rewrite app_nil_r.
    + unfold ledger_with, fresh, file_text.
      destruct s as [|c s]; [contradiction|]. reflexivity.
Qed.

(** C7, amended.  The file name of the attachment starts from the explicit
    name when one is given and not empty, else from the base name of the
    source when the source does not begin with http, else from image.jpg
    when the source begins with http:// or https://.  That name is kept as
    it is when, lower-cased, it ends in .jpg or .jpeg, and otherwise its
    stem gets the extension .jpg.  So the file name, lower-cased, always
    ends in .jpg or .jpeg. *)
Theorem C7_file_name_rule (img_src : str) (filename : option str) :
  (forall n, filename = Some n -> n <> [] -> base_name img_src filename = n)
  /\ (str_or filename [] = [] -> startswith (lit "http") img_src = false ->
      base_name img_src filename = path_name img_src)
  /\ (str_or filename [] = [] -> is_remote img_src = true ->
      base_name img_src filename = lit "image.jpg")
  /\ (endswith (lit ".jpg") (lower (base_name img_src filename))
      || endswith (lit ".jpeg") (lower (base_name img_src filename)) = true ->
      file_name img_src filename = base_name img_src filename)
  /\ (endswith (lit ".jpg") (lower (base_name img_src filename))
      || endswith (lit ".jpeg") (lower (base_name img_src filename)) = false ->
      file_name img_src filename = path_stem (base_name img_src filename) ++ lit ".jpg")
  /\ endswith (lit ".jpg") (lower (file_name img_src filename))
     || endswith (lit ".jpeg") (lower (file_name img_src filename)) = true.
Proof.
  assert (Fallback : forall d, str_or filename [] = [] -> str_or filename d = d).
  { intros d. unfold str_or. destruct filename as [n|]; [|reflexivity].
    destruct n; [reflexivity | discriminate]. }
  repeat split.
  - intros n -> Hn. unfold base_name, str_or. destruct n; [contradiction | reflexivity].
  - intros E H. unfold base_name. rewrite (Fallback _ E), H. reflexivity.
  - intros E H. unfold base_name. rewrite (Fallback _ E).
    assert (S : startswith (lit "http") img_src = true).
    { unfold is_remote in H. apply orb_true_iff in H as [H|H].
      - apply (startswith_shorter (lit "http") (lit "://")), H.
      - apply (startswith_shorter (lit "http") (lit "s://")), H. }
    rewrite S. reflexivity.
  - intros H. rewrite file_name_cases. cbn zeta. now rewrite H.
  - intros H. rewrite file_name_cases. cbn zeta. now rewrite H.
  - rewrite file_name_cases. cbn zeta.
    destruct (endswith (lit ".jpg") (lower (base_name img_src filename))
              || endswith (lit ".jpeg") (lower (base_name img_src filename))) eqn:K.
    + exact K.
    + now rewrite lower_keeps_jpg.
Qed.

Lemma posts_satisfy (Q : Payload -> Prop) (evs : list event) :
  Forall (fun ev => exists u a b, ev = Post u a b /\ Q b) (filter is_post evs) ->
  Forall (fun ev => match ev with Post _ _ b => Q b | _ => True end) evs.
Proof.
  induction evs as [|ev evs IH]; intros H; [constructor|].
  destruct ev as [src|u a b|]; cbn [filter is_post] in H.
  - constructor; [exact I | now apply IH].
  - inversion H as [|? ? (u' & a' & b' & E & HQ) H']; subst.
    injection E as -> -> ->. constructor; [exact HQ | now apply IH].
  - constructor; [exact I | now apply IH].
Qed.

(** C10.  Every request of a run carries, as its text, the configured
    message template stripped of leading and trailing whitespace, the same
    for every contact.  The template is the value of MESSAGE_TEMPLATE when
    that variable is set and not empty, else the value of MESSAGE_TEXT when
    that one is set and not empty, else the empty string; so with neither
    variable set the text of every request is empty. *)
Theorem C10_request_text_is_stripped_template (getenv : str -> option str)
    (delay_positive : bool) (cs : list Contact) (w : World) :
  (exists evs,
      trace (snd (dispatch_all (settings_of getenv delay_positive) cs w)) = trace w ++ evs
      /\ Forall (fun ev =>
                  match ev with
                  | Post _ _ body =>
                      p_text body
                      = strip match getenv (lit "MESSAGE_TEMPLATE") with
                              | Some (c :: s) => c :: s
                              | _ => match getenv (lit "MESSAGE_TEXT") with
                                     | Some (c :: s) => c :: s
                                     | _ => []
                                     end
                              end
                  | _ => True
                  end) evs)
  /\ (getenv (lit "MESSAGE_TEMPLATE") = None -> getenv (lit "MESSAGE_TEXT") = None ->
      exists evs,
        trace (snd (dispatch_all (settings_of getenv delay_positive) cs w)) = trace w ++ evs
        /\ Forall (fun ev => match ev with
                             | Post _ _ body => p_text body = []
                             | _ => True
                             end) evs).
Proof.
  assert (H : exists evs,
             trace (snd (dispatch_all (settings_of getenv delay_positive) cs w))
             = trace w ++ evs
             /\ Forall (fun ev =>
                  match ev with
                  | Post _ _ body =>
                      p_text body
                      = strip match getenv (lit "MESSAGE_TEMPLATE") with
                              | Some (c :: s) => c :: s
                              | _ => match getenv (lit "MESSAGE_TEXT") with
                                     | Some (c :: s) => c :: s
                                     | _ => []
                                     end
                              end
                  | _ => True
                  end) evs).
  { destruct (dispatch_from_effect (settings_of getenv delay_positive)
                (List.length cs) cs 1 w) as (_ & rs & evs & H).
    cbn zeta in H. destruct H as (_ & _ & _ & _ & _ & _ & T & _ & Ps).
    exists evs. split; [exact T|].
    apply posts_satisfy. eapply Forall_impl; [|exact Ps].
    intros ev (c & jpg & _ & ->). unfold request_of, request_for.
    do 3 eexists. split; [reflexivity|]. cbn [p_text TEXT settings_of].
    rewrite strip_idempotent. f_equal. unfold message_template, str_or, nonempty.
    destruct (getenv (lit "MESSAGE_TEMPLATE")) as [[|a s]|];
      destruct (getenv (lit "MESSAGE_TEXT")) as [[|b t]|]; reflexivity. }
  split; [exact H|].
  intros A B. rewrite A, B in H. exact H.
Qed.



(** C8, amended.  The detail of a record is a JSON object of one member: on
    success the member resp holds the parsed body of the gateway's answer,
    on failure the member erro holds the message of the exception.  It goes
    into the ledger in the compact form, without spaces around the
    separators.  The records are those the UTF-8 encoder of the ledger
    accepts; a success whose record it refuses is recorded as a failure,
    with code 0 and the message of the encoder. *)
Theorem C8_detail_wraps_body_or_error (cfg : Settings) (total i : nat) (c : Contact)
    (w : World) :
  let sent := fst (send_image_with_caption_base64 (API_V1 cfg) (TOKEN cfg) (telefone c)
                     (SRVID cfg) (TEXT cfg) (IMAGE cfg) None w) in
  let w' := snd (iteration_utf8 cfg total i c w) in
  (forall resp, sent = Ok resp ->
     (exists n r, net w n = Got r /\ body_json r = Json resp)
     /\ (encodable {| o_linha := Z.of_nat i; o_telefone := telefone c;
                      o_status := lit "ENVIADO"; o_http := 200;
                      o_detalhe := JObj [(lit "resp", resp)] |} = true ->
         textfiles w' LEDGER
         = ledger_with (textfiles w LEDGER)
             [{| o_linha := Z.of_nat i; o_telefone := telefone c;
                 o_status := lit "ENVIADO"; o_http := 200;
                 o_detalhe := JObj [(lit "resp", resp)] |}])
     /\ (forall msg,
           utf8_error (row_line {| o_linha := Z.of_nat i; o_telefone := telefone c;
                                   o_status := lit "ENVIADO"; o_http := 200;
                                   o_detalhe := JObj [(lit "resp", resp)] |}) = Some msg ->
           encodable {| o_linha := Z.of_nat i; o_telefone := telefone c;
                        o_status := lit "FALHA"; o_http := 0;
                        o_detalhe := JObj [(lit "erro", JStr msg)] |} = true ->
           textfiles w' LEDGER
           = ledger_with (textfiles w LEDGER)
               [{| o_linha := Z.of_nat i; o_telefone := telefone c;
                   o_status := lit "FALHA"; o_http := 0;
                   o_detalhe := JObj [(lit "erro", JStr msg)] |}])
     /\ json_dumps (JObj [(lit "resp", resp)])
        = lit "{" ++ quoted (lit "resp") ++ lit ":" ++ json_dumps resp ++ lit "}")
  /\ (forall e, sent = Raise e ->
     (encodable {| o_linha := Z.of_nat i; o_telefone := telefone c;
                   o_status := lit "FALHA"; o_http := code_of e;
                   o_detalhe := JObj [(lit "erro", JStr (exn_str e))] |} = true ->
      textfiles w' LEDGER
      = ledger_with (textfiles w LEDGER)
          [{| o_linha := Z.of_nat i; o_telefone := telefone c;
              o_status := lit "FALHA"; o_http := code_of e;
              o_detalhe := JObj [(lit "erro", JStr (exn_str e))] |}])
     /\ json_dumps (JObj [(lit "erro", JStr (exn_str e))])
        = lit "{" ++ quoted (lit "erro") ++ lit ":" ++ json_quote (exn_str e) ++ lit "}").
Proof.
  intros sent w'. fold (send_for cfg c) in sent.
  destruct (iteration_utf8_ledger cfg total i c w) as (E1 & E2). fold sent w' in E1, E2.
  split.
  - intros resp H. split; [|split; [|split]].
    + destruct (send_for_ok cfg c w H) as (n & r & A & _ & B).
      now exists n, r.
    + intros E. rewrite H in E1. exact (E1 E).
    + intros msg M E. rewrite H in E2. exact (E2 resp msg eq_refl M E).
    + cbn [json_dumps map join fst snd]. now rewrite <- !app_assoc.
  - intros e H. split.
    + intros E. rewrite H in E1. exact (E1 E).
    + cbn [json_dumps map join fst snd]. now rewrite <- !app_assoc.
Qed.


End Claims.

(** * The sample run, on the concrete platform *)

#[local] Existing Instance latin1.

#[local] Existing Instance posix.

#[local] Existing Instance no_pillow.

Lemma len_big_image : len_bytes big_image = 66060289%Z.
Proof.
  unfold len_bytes, big_image. rewrite repeat_length. apply Z2Nat.id. lia.
Qed.

Lemma ensure_without_pillow (b : bytes) : ensure_jpeg_bytes (P := no_pillow) b = b.
Proof. reflexivity. Qed.

Lemma big_image_over_limit : (len_bytes (ensure_jpeg_bytes big_image) > MAX_BYTES)%Z.
Proof. rewrite ensure_without_pillow, len_big_image. reflexivity. Qed.

Lemma sample_main_dispatches (image : bytes) (answer : http_outcome) :
  let w := sample_world image one_row_table answer in
  fst (main sample_env false sample_args w) = Finished
  /\ snd (main sample_env false sample_args w) = snd (dispatch_all sample_settings [ana] w).
Proof.
  intros w.
  assert (E : main sample_env false sample_args w
              = (Finished, snd (dispatch_all sample_settings [ana] w))).
  { apply (main_dispatches sample_env false sample_args w (table := one_row_table)
             (rows := [ana])); try reflexivity.
    right. discriminate. }
  rewrite E. split; reflexivity.
Qed.

(** C3: the gateway answers the request for Ana with HTTP 422 and the body
    of the scenario.  The record written is a FALHA whose detail carries the
    body, but its http column is 0, not 422. *)
Theorem C3_rejected_post_is_logged_with_code_zero :
  let run := main sample_env false sample_args
               (sample_world small_image one_row_table answer_422) in
  fst run = Finished
  /\ textfiles (snd run) LEDGER
     = Some (csv_line FIELDNAMES
             ++ row_line
                  {| o_linha := 1;
                     o_telefone := lit "5511999990000";
                     o_status := lit "FALHA";
                     o_http := 0;
                     o_detalhe :=
                       JObj [(lit "erro",
                              JStr (lit "422 Client Error: Unprocessable Entity for url: https://api.example.com/api/v1/messages | body="
                                    ++ invalid_number_body))] |}).
Proof. vm_compute. split; reflexivity. Qed.


(** An instance of a theorem, with the local definitions of its statement
    unfolded. *)
Ltac instance_of H :=
  let X := fresh "X" in pose proof H as X; cbv zeta in X; exact X.

(** C4 at an ASCII sample: a number written with brackets, blank and
    hyphen normalizes as the rule says. *)
Lemma C4_witness :
  normalize_phone (lit "(31) 99999-8888") = normalize (lit "(31) 99999-8888").
Proof.
  instance_of (proj1 (C4_normalize_phone_keeps_superscript_digit (U := latin1))
                 (lit "(31) 99999-8888") eq_refl).
Defined.





Lemma header_and_row_nonempty : csv_line FIELDNAMES ++ row_line sent_row <> [].
Proof. vm_compute. discriminate. Qed.

(** C6 fails as stated: the record of an answer that holds a lone surrogate
    goes to an absent ledger; the call writes the header, raises, and leaves
    no record line. *)
Lemma C6_refused_record_adds_no_line :
  fst (append_outcome_utf8 LEDGER surrogate_row empty_world)
  = Raise (UnicodeEncodeError surrogate_message)
  /\ textfiles (snd (append_outcome_utf8 LEDGER surrogate_row empty_world)) LEDGER
     = Some (csv_line FIELDNAMES)
  /\ textfiles (snd (append_outcome_utf8 LEDGER surrogate_row empty_world)) LEDGER
     <> Some (csv_line FIELDNAMES ++ row_line surrogate_row).
Proof. vm_compute. repeat split; try reflexivity. discriminate. Qed.

Lemma sample_rows_encodable : forallb encodable [sent_row; failed_row] = true.
Proof. vm_compute. reflexivity. Qed.

Lemma failed_row_encodable : forallb encodable [failed_row] = true.
Proof. vm_compute. reflexivity. Qed.

(** The amended C6 at the sample: two records into an absent ledger, and one
    more into the ledger that then exists. *)
Lemma C6_witness :
  textfiles (snd (append_all_utf8 LEDGER [sent_row; failed_row] empty_world)) LEDGER
  = Some (csv_line FIELDNAMES ++ flat_map row_line [sent_row; failed_row])
  /\ textfiles (snd (append_all_utf8 LEDGER [failed_row]
                       (write_text LEDGER (csv_line FIELDNAMES ++ row_line sent_row)
                          empty_world))) LEDGER
     = Some ((csv_line FIELDNAMES ++ row_line sent_row) ++ flat_map row_line [failed_row]).
Proof.
  split.
  - instance_of (proj1 (proj2 (proj2 (C6_header_written_once LEDGER empty_world)))
                   sent_row [failed_row] sample_rows_encodable eq_refl).
  - instance_of (proj2 (proj2 (proj2 (C6_header_written_once LEDGER
                                 (write_text LEDGER (csv_line FIELDNAMES ++ row_line sent_row)
                                    empty_world))))
                   (csv_line FIELDNAMES ++ row_line sent_row) [failed_row]
                   failed_row_encodable eq_refl header_and_row_nonempty).
Defined.

(** C7 fails as stated: a name whose extension is written in capitals is
    kept as it is, and does not end in .jpg or .jpeg. *)
Lemma C7_upper_case_extension_is_kept :
  file_name (lit "FOTO.JPG") None = lit "FOTO.JPG"
  /\ file_name (lit "banner.png") (Some (lit "FOTO.JPG")) = lit "FOTO.JPG"
  /\ endswith (lit ".jpg") (lit "FOTO.JPG") = false
  /\ endswith (lit ".jpeg") (lit "FOTO.JPG") = false.
Proof. vm_compute. repeat split; reflexivity. Qed.

Lemma foto_png_nonempty : lit "foto.png" <> [].
Proof. vm_compute. discriminate. Qed.

(** The amended C7 at two samples: an explicit name, and a remote source
    without one. *)
Lemma C7_witness :
  base_name (lit "banner.png") (Some (lit "foto.png")) = lit "foto.png"
  /\ base_name (lit "https://cdn.example.com/b.png") None = lit "image.jpg".
Proof.
  split.
  - instance_of (proj1 (C7_file_name_rule (lit "banner.png") (Some (lit "foto.png")))
                   (lit "foto.png") eq_refl foto_png_nonempty).
  - instance_of (proj1 (proj2 (proj2 (C7_file_name_rule
                                        (lit "https://cdn.example.com/b.png") None)))
                   eq_refl eq_refl).
Defined.

(** C8 fails as stated: the gateway accepts the request for Ana and answers
    with a JSON object holding an id; the detail written to the ledger is
    not that body but an object with the body under the key resp. *)
Lemma C8_detail_is_not_the_body_itself :
  let run := main sample_env false sample_args
               (sample_world small_image one_row_table answer_200) in
  textfiles (snd run) LEDGER
  = Some (csv_line FIELDNAMES
          ++ csv_line [lit "1"; lit "5511999990000"; lit "ENVIADO"; lit "200";
                       lit "{" ++ quoted (lit "resp") ++ lit ":{" ++ quoted (lit "id")
                       ++ lit ":1}}"])
  /\ json_dumps accepted_body = lit "{" ++ quoted (lit "id") ++ lit ":1}"
  /\ textfiles (snd run) LEDGER
     <> Some (csv_line FIELDNAMES
              ++ csv_line [lit "1"; lit "5511999990000"; lit "ENVIADO"; lit "200";
                           json_dumps accepted_body]).
Proof. vm_compute. repeat split; try reflexivity. discriminate. Qed.

Lemma sent_row_encodable :
  encodable {| o_linha := Z.of_nat 1; o_telefone := telefone ana;
               o_status := lit "ENVIADO"; o_http := 200;
               o_detalhe := JObj [(lit "resp", accepted_body)] |} = true.
Proof. vm_compute. reflexivity. Qed.

Lemma surrogate_row_refused :
  utf8_error (row_line {| o_linha := Z.of_nat 1; o_telefone := telefone ana;
                          o_status := lit "ENVIADO"; o_http := 200;
                          o_detalhe := JObj [(lit "resp", surrogate_body)] |})
  = Some surrogate_message.
Proof. vm_compute. reflexivity. Qed.

Lemma refusal_row_encodable :
  encodable {| o_linha := Z.of_nat 1; o_telefone := telefone ana;
               o_status := lit "FALHA"; o_http := 0;
               o_detalhe := JObj [(lit "erro", JStr surrogate_message)] |} = true.
Proof. vm_compute. reflexivity. Qed.

Lemma sample_send_accepted (body : json) (text : str) :
  fst (send_image_with_caption_base64 (API_V1 sample_settings) (TOKEN sample_settings)
         (telefone ana) (SRVID sample_settings) (TEXT sample_settings)
         (IMAGE sample_settings) None
         (sample_world small_image one_row_table
            (Got {| status_code := 200; reason := lit "OK";
                    resp_url := lit "https://api.example.com/api/v1/messages";
                    content := []; resp_text := text; body_json := Json body |})))
  = Ok body.
Proof. reflexivity. Qed.

(** The amended C8 at the sample: the accepted request for Ana, answered
    with an id that is a number, and answered with an id that holds a lone
    surrogate. *)
Lemma C8_witness :
  ((exists n r, net (sample_world small_image one_row_table answer_200) n = Got r
                /\ body_json r = Json accepted_body)
   /\ textfiles (snd (iteration_utf8 sample_settings 1 1 ana
                        (sample_world small_image one_row_table answer_200))) LEDGER
      = ledger_with (textfiles (sample_world small_image one_row_table answer_200) LEDGER)
          [{| o_linha := Z.of_nat 1; o_telefone := telefone ana;
              o_status := lit "ENVIADO"; o_http := 200;
              o_detalhe := JObj [(lit "resp", accepted_body)] |}])
  /\ textfiles (snd (iteration_utf8 sample_settings 1 1 ana
                       (sample_world small_image one_row_table answer_surrogate))) LEDGER
     = ledger_with (textfiles (sample_world small_image one_row_table answer_surrogate) LEDGER)
         [{| o_linha := Z.of_nat 1; o_telefone := telefone ana;
             o_status := lit "FALHA"; o_http := 0;
             o_detalhe := JObj [(lit "erro", JStr surrogate_message)] |}].
Proof.
  pose proof (proj1 (C8_detail_wraps_body_or_error sample_settings 1 1 ana
                       (sample_world small_image one_row_table answer_200))
                accepted_body (sample_send_accepted _ _)) as (A & B & _).
  pose proof (proj1 (C8_detail_wraps_body_or_error sample_settings 1 1 ana
                       (sample_world small_image one_row_table answer_surrogate))
                surrogate_body (sample_send_accepted _ _)) as (_ & _ & C & _).
  split; [split; [exact A | exact (B sent_row_encodable)]|].
  exact (C surrogate_message surrogate_row_refused refusal_row_encodable).
Defined.

(** C10 at the sample: MESSAGE_TEMPLATE holds the words Oferta da semana
    between two blanks and one; the run posts a request for each of the two
    contacts, and both carry the words without the blanks.  With an
    environment that sets nothing, the requests carry the empty text. *)
Lemma C10_witness :
  ((exists evs,
       trace (snd (dispatch_all sample_settings [ana; bea]
                     (sample_world small_image sample_table answer_200)))
       = trace (sample_world small_image sample_table answer_200) ++ evs
       /\ Forall (fun ev => match ev with
                            | Post _ _ body => p_text body = lit "Oferta da semana"
                            | _ => True
                            end) evs)
   /\ List.length
        (filter is_post
           (trace (snd (dispatch_all sample_settings [ana; bea]
                          (sample_world small_image sample_table answer_200))))) = 2%nat)
  /\ (exists evs,
        trace (snd (dispatch_all (settings_of (fun _ => None) false) [ana; bea]
                      (sample_world small_image sample_table answer_200)))
        = trace (sample_world small_image sample_table answer_200) ++ evs
        /\ Forall (fun ev => match ev with
                             | Post _ _ body => p_text body = []
                             | _ => True
                             end) evs).
Proof.
  split; [split|].
  - instance_of (proj1 (C10_request_text_is_stripped_template sample_env false [ana; bea]
                          (sample_world small_image sample_table answer_200))).
  - vm_compute. reflexivity.
  - instance_of (proj2 (C10_request_text_is_stripped_template (fun _ => None) false
                          [ana; bea] (sample_world small_image sample_table answer_200))
                   eq_refl eq_refl).
Defined.

(** * Further properties of the script *)

(** ** What a normalized phone looks like *)

Section NormalizeShape.

Context {U : Unicode}.

Lemma dropwhile_nil_iff (p : char -> bool) (s : str) :
  dropwhile p s = [] <-> forallb p s = true.
Proof.
  induction s as [|c s IH]; cbn [dropwhile forallb]; [tauto|].
  destruct (p c); cbn [andb]; [exact IH|]. split; discriminate.
Qed.

Lemma dropwhile_length (p : char -> bool) (s : str) :
  (List.length (dropwhile p s) <= List.length s)%nat.
Proof.
  induction s as [|c s IH]; cbn [dropwhile List.length]; [lia|].
  destruct (p c); cbn [List.length]; lia.
Qed.

Lemma filter_length_le (p : char -> bool) (s : str) :
  (List.length (filter p s) <= List.length s)%nat.
Proof.
  induction s as [|c s IH]; cbn [filter List.length]; [lia|].
  destruct (p c); cbn [List.length]; lia.
Qed.

(** The two shapes of the result, from the significant digits [d] of the
    input. *)
Lemma normalize_phone_shape (raw : str) :
  let d := strip_leading_zeros (digits_only raw) in
  (normalize_phone raw = lit "55" ++ d
   /\ (10 <= List.length d)%nat /\ startswith (lit "55") d = false)
  \/ (normalize_phone raw = d
      /\ ((List.length d < 10)%nat \/ startswith (lit "55") d = true)).
Proof.
  intros d. rewrite normalize_phone_unfold. unfold normalize_steps. fold d.
  destruct (10 <=? List.length d)%nat eqn:A; cbn [andb].
  - apply Nat.leb_le in A. destruct (startswith (lit "55") d) eqn:B; cbn [negb].
    + right. split; [reflexivity | now right].
    + left. repeat split; assumption.
  - apply Nat.leb_gt in A. right. split; [reflexivity | now left].
Qed.

(** X1.  The result of [normalize_phone] holds digits only and never begins
    with the character 0. *)
Theorem X1_normalized_phone_is_digits_without_leading_zero (raw : str) :
  forallb isdigit (normalize_phone raw) = true
  /\ startswith (lit "0") (normalize_phone raw) = false.
Proof.
  destruct (significant_digits raw) as [Hd Hz].
  pose proof (dropwhile_head (chr_eqb 48%N) (digits_only raw)) as Hh.
  fold (strip_leading_zeros (digits_only raw)) in Hh.
  assert (H5 : isdigit 53%N = true) by (rewrite isdigit_ascii; reflexivity).
  destruct (normalize_phone_shape raw) as [(E & _)|(E & _)]; rewrite E.
  - split; [|reflexivity].
    change (lit "55" ++ strip_leading_zeros (digits_only raw))
      with (53%N :: 53%N :: strip_leading_zeros (digits_only raw)).
    cbn [forallb]. now rewrite H5, Hd.
  - split; [exact Hd|].
    destruct (strip_leading_zeros (digits_only raw)) as [|c t]; [reflexivity|].
    change (lit "0") with [48%N]. cbn [startswith]. now rewrite Hh.
Qed.

(** X2.  A result of ten characters or more begins with 55, and the result
    is at most two characters longer than the number of digits in the
    input. *)
Theorem X2_long_normalized_phone_has_prefix (raw : str) :
  ((List.length (normalize_phone raw) < 10)%nat
   \/ startswith (lit "55") (normalize_phone raw) = true)
  /\ (List.length (normalize_phone raw) <= List.length (digits_only raw) + 2)%nat.
Proof.
  pose proof (dropwhile_length (chr_eqb 48%N) (digits_only raw)) as Hl.
  fold (strip_leading_zeros (digits_only raw)) in Hl.
  destruct (normalize_phone_shape raw) as [(E & _)|(E & C)]; rewrite E.
  - split; [right; apply startswith_app|].
    rewrite length_app. change (List.length (lit "55")) with 2%nat. lia.
  - split; [exact C | lia].
Qed.

(** X3.  The result is empty, so that the row is dropped, exactly when the
    input has no digit other than 0. *)
Theorem X3_normalized_phone_empty_iff (raw : str) :
  normalize_phone raw = []
  <-> forall c, In c raw -> isdigit c = true -> c = 48%N.
Proof.
  assert (K : strip_leading_zeros (digits_only raw) = []
              <-> forall c, In c raw -> isdigit c = true -> c = 48%N).
  { unfold strip_leading_zeros, digits_only. rewrite dropwhile_nil_iff, forallb_forall.
    split.
    - intros H c Hin Hc. symmetry. apply chr_eqb_eq, H, filter_In. now split.
    - intros H c Hin. apply filter_In in Hin as [Hin Hc].
      apply chr_eqb_eq. symmetry. now apply H. }
  rewrite <- K.
  destruct (normalize_phone_shape raw) as [(E & _)|(E & _)]; rewrite E.
  - split; [discriminate|]. intros H. rewrite H in *.
    destruct (normalize_phone_shape raw) as [(_ & A & _)|(E' & _)].
    + rewrite H in A. cbn in A. lia.
    + rewrite E' in E. rewrite H in E. discriminate.
  - tauto.
Qed.

End NormalizeShape.

(** ** The base64 text of the image *)

Lemma bytes_ind3 (Q : bytes -> Prop) :
  Q [] -> (forall x, Q [x]) -> (forall x y, Q [x; y]) ->
  (forall x y z rest, Q rest -> Q (x :: y :: z :: rest)) ->
  forall b, Q b.
Proof.
  intros H0 H1 H2 H3 b.
  assert (A : Q b /\ (forall x, Q (x :: b)) /\ (forall x y, Q (x :: y :: b))).
  { induction b as [|z b (IH0 & IH1 & IH2)].
    - repeat split; auto.
    - repeat split; auto. }
  apply A.
Qed.

(** A character of the base64 alphabet, or the padding sign. *)
Definition is_b64_char (c : char) : bool :=
  (((65 <=? c) && (c <=? 90)) || ((97 <=? c) && (c <=? 122)) || ((48 <=? c) && (c <=? 57))
   || (c =? 43) || (c =? 47) || (c =? 61))%N.

Ltac split_comparisons :=
  repeat match goal with
         | |- context [(?a <=? ?b)%N] => destruct (N.leb_spec a b)
         | |- context [(?a <? ?b)%N] => destruct (N.ltb_spec a b)
         | |- context [(?a =? ?b)%N] => destruct (N.eqb_spec a b)
         end.

Lemma b64_chr_in_alphabet (n : N) :
  is_b64_char (b64_chr n) = true /\ is_ascii (b64_chr n) = true
  /\ chr_eqb (b64_chr n) 61%N = false.
Proof.
  assert (R : (65 <= b64_chr n <= 90 \/ 97 <= b64_chr n <= 122 \/ 48 <= b64_chr n <= 57
               \/ b64_chr n = 43 \/ b64_chr n = 47)%N).
  { unfold b64_chr.
    destruct (N.ltb_spec n 26); [|destruct (N.ltb_spec n 52);
      [|destruct (N.ltb_spec n 62); [|destruct (N.eqb_spec n 62)]]]; lia. }
  unfold is_b64_char, is_ascii, chr_eqb. repeat split.
  - rewrite !orb_true_iff, !andb_true_iff, !N.leb_le, !N.eqb_eq. lia.
  - apply N.ltb_lt. lia.
  - apply N.eqb_neq. lia.
Qed.

(** X4.  The base64 text has four characters for every three bytes, the
    last group padded, and holds only ASCII characters of the base64
    alphabet: decoding it as ASCII (source line 61) cannot fail. *)
Theorem X4_base64_length_and_alphabet (b : bytes) :
  List.length (to_base64 b) = (4 * ((List.length b + 2) / 3))%nat
  /\ forallb is_b64_char (to_base64 b) = true
  /\ forallb is_ascii (to_base64 b) = true.
Proof.
  induction b as [|x|x y|x y z rest (IH1 & IH2 & IH3)] using bytes_ind3.
  - repeat split.
  - cbn [to_base64 forallb List.length].
    destruct (b64_chr_in_alphabet (x / 4)) as (A1 & A2 & _).
    destruct (b64_chr_in_alphabet (x mod 4 * 16)) as (B1 & B2 & _).
    rewrite A1, A2, B1, B2. repeat split.
  - cbn [to_base64 forallb List.length].
    destruct (b64_chr_in_alphabet (x / 4)) as (A1 & A2 & _).
    destruct (b64_chr_in_alphabet (x mod 4 * 16 + y / 16)) as (B1 & B2 & _).
    destruct (b64_chr_in_alphabet (y mod 16 * 4)) as (C1 & C2 & _).
    rewrite A1, A2, B1, B2, C1, C2. repeat split.
  - cbn [to_base64 forallb List.length app].
    destruct (b64_chr_in_alphabet (x / 4)) as (A1 & A2 & _).
    destruct (b64_chr_in_alphabet (x mod 4 * 16 + y / 16)) as (B1 & B2 & _).
    destruct (b64_chr_in_alphabet (y mod 16 * 4 + z / 64)) as (C1 & C2 & _).
    destruct (b64_chr_in_alphabet (z mod 64)) as (D1 & D2 & _).
    rewrite A1, A2, B1, B2, C1, C2, D1, D2, IH1, IH2, IH3. repeat split.
    cbn [andb].
    replace (S (S (S (List.length rest))) + 2)%nat
      with (1 * 3 + (List.length rest + 2))%nat by lia.
    rewrite Nat.div_add_l by lia. lia.
Qed.

(** The value of a base64 character, and the decoder it gives. *)
Definition b64_val (c : char) : N :=
  (if (65 <=? c) && (c <=? 90) then c - 65
   else if (97 <=? c) && (c <=? 122) then c - 71
   else if (48 <=? c) && (c <=? 57) then c + 4
   else if c =? 43 then 62 else 63)%N.

Fixpoint b64decode (s : str) : bytes :=
  match s with
  | a :: b :: c :: d :: rest =>
      let va := b64_val a in
      let vb := b64_val b in
      let vc := b64_val c in
      let vd := b64_val d in
      if chr_eqb d 61%N then
        if chr_eqb c 61%N then [va * 4 + vb / 16]%N
        else [va * 4 + vb / 16; (vb mod 16) * 16 + vc / 4]%N
      else [va * 4 + vb / 16; (vb mod 16) * 16 + vc / 4; (vc mod 4) * 64 + vd]%N
           ++ b64decode rest
  | _ => []
  end.

Lemma b64_val_chr (n : N) : (n < 64)%N -> b64_val (b64_chr n) = n.
Proof.
  intros H. unfold b64_chr, b64_val.
  destruct (N.ltb_spec n 26); [|destruct (N.ltb_spec n 52);
    [|destruct (N.ltb_spec n 62); [|destruct (N.eqb_spec n 62)]]];
    split_comparisons; cbn [andb orb]; lia.
Qed.

Ltac euclid := Z.to_euclidean_division_equations; lia.

Lemma sextets (x y z : N) :
  (x < 256 -> y < 256 -> z < 256 ->
   x / 4 < 64 /\ x mod 4 * 16 + y / 16 < 64 /\ y mod 16 * 4 + z / 64 < 64 /\ z mod 64 < 64
   /\ x mod 4 * 16 < 64 /\ y mod 16 * 4 < 64
   /\ x / 4 * 4 + (x mod 4 * 16 + y / 16) / 16 = x
   /\ (x mod 4 * 16 + y / 16) mod 16 * 16 + (y mod 16 * 4 + z / 64) / 4 = y
   /\ (y mod 16 * 4 + z / 64) mod 4 * 64 + z mod 64 = z
   /\ x / 4 * 4 + (x mod 4 * 16) / 16 = x
   /\ (x mod 4 * 16 + y / 16) mod 16 * 16 + (y mod 16 * 4) / 4 = y)%N.
Proof. intros Hx Hy Hz. zify. repeat split; euclid. Qed.

Lemma b64decode_to_base64 (b : bytes) :
  Forall (fun x => (x < 256)%N) b -> b64decode (to_base64 b) = b.
Proof.
  induction b as [|x|x y|x y z rest IH] using bytes_ind3; intros H.
  - reflexivity.
  - inversion H as [|? ? Hx _]; subst.
    destruct (sextets Hx Hx Hx) as (A & _ & _ & _ & B & _ & _ & _ & _ & E & _).
    cbn [to_base64 b64decode]. change (chr_eqb 61%N 61%N) with true. cbn iota.
    now rewrite !b64_val_chr, E by assumption.
  - inversion H as [|? ? Hx H']; subst. inversion H' as [|? ? Hy _]; subst.
    destruct (sextets Hx Hy Hy) as (A & B & _ & _ & _ & C & E1 & _ & _ & _ & E2).
    destruct (b64_chr_in_alphabet (y mod 16 * 4)) as (_ & _ & N3).
    cbn [to_base64 b64decode]. change (chr_eqb 61%N 61%N) with true. rewrite N3. cbn iota.
    now rewrite !b64_val_chr, E1, E2 by assumption.
  - inversion H as [|? ? Hx H']; subst. inversion H' as [|? ? Hy H'']; subst.
    inversion H'' as [|? ? Hz Hr]; subst.
    destruct (sextets Hx Hy Hz) as (A & B & C & D & _ & _ & E1 & E2 & E3 & _).
    destruct (b64_chr_in_alphabet (z mod 64)) as (_ & _ & N4).
    cbn [to_base64 b64decode app]. rewrite N4. cbn iota.
    rewrite !b64_val_chr, E1, E2, E3, (IH Hr) by assumption. reflexivity.
Qed.

(** X5.  On byte strings [to_base64] loses nothing: decoding the text gives
    the bytes back, so two images with the same text are the same image. *)
Theorem X5_base64_round_trip (b : bytes) :
  Forall (fun x => (x < 256)%N) b ->
  b64decode (to_base64 b) = b
  /\ forall a, Forall (fun x => (x < 256)%N) a -> to_base64 a = to_base64 b -> a = b.
Proof.
  intros Hb. split; [now apply b64decode_to_base64|].
  intros a Ha E.
  rewrite <- (b64decode_to_base64 Ha), <- (b64decode_to_base64 Hb). now rewrite E.
Qed.

Lemma small_image_is_bytes : Forall (fun x => (x < 256)%N) small_image.
Proof. repeat constructor. Qed.

Lemma X5_witness : b64decode (to_base64 small_image) = small_image.
Proof. instance_of (proj1 (X5_base64_round_trip small_image_is_bytes)). Defined.

(** ** How a send ends *)

Section SendShape.

Context {U : Unicode} {P : Pillow} {L : PathLib}.

Lemma int_or_zero_id (x : Z) : int_or_zero x = x.
Proof. unfold int_or_zero. destruct (Z.eqb_spec x 0); congruence. Qed.

Lemma read_image_bytes_run (src : str) (w : World) :
  read_image_bytes src w =
  if is_remote src then
    match net w (exchanges w) with
    | NoResponse msg resp =>
        (Raise (RequestError msg resp), tick (log_event (ReadImage src) w))
    | Got r =>
        (if is_error_status r then Raise (HTTPError (http_error_msg r) (Some r))
         else Ok (content r),
         tick (log_event (ReadImage src) w))
    end
  else
    (match images w src, unreadable w src with
     | None, None => Raise (FileNotFoundError
                              (lit "Imagem n" ++ [227%N] ++ lit "o encontrada: " ++ src))
     | Some b, _ => Ok b
     | None, Some msg => Raise (OSError msg)
     end,
     log_event (ReadImage src) w).
Proof.
  unfold read_image_bytes, bind, effect, ask, requests_get, http_exchange.
  destruct (is_remote src).
  - cbn [net log_event exchanges].
    destruct (net w (exchanges w)) as [msg resp|r]; [reflexivity|].
    rewrite raise_for_status_run. destruct (is_error_status r); reflexivity.
  - cbn [images unreadable log_event].
    destruct (images w src), (unreadable w src); reflexivity.
Qed.

(** X6.  Reading the image.  A local source never uses the network: it
    gives the bytes of the file when the file can be read, fails with
    [FileNotFoundError] exactly when nothing exists at the path, and
    otherwise fails with the error of the read.  A remote source never looks
    at the local files and costs exactly one call of [requests]: it gives
    the content of the answer unless the status is 4xx or 5xx, in which case
    the exception carries that status; when [requests] itself raises, the
    exception is that one, with the response it carries, if any. *)
Theorem X6_image_source_is_local_or_remote (src : str) (w : World) :
  let r := fst (read_image_bytes src w) in
  let w' := snd (read_image_bytes src w) in
  (is_remote src = false /\ exchanges w' = exchanges w
   /\ ((exists b, images w src = Some b /\ r = Ok b)
       \/ (path_exists w src = false /\ exists msg, r = Raise (FileNotFoundError msg))
       \/ (path_exists w src = true /\ images w src = None
           /\ exists msg, unreadable w src = Some msg /\ r = Raise (OSError msg))))
  \/ (is_remote src = true /\ exchanges w' = S (exchanges w)
      /\ ((exists msg resp, net w (exchanges w) = NoResponse msg resp
                            /\ r = Raise (RequestError msg resp))
          \/ (exists a, net w (exchanges w) = Got a
                /\ ((is_error_status a = false /\ r = Ok (content a))
                    \/ (is_error_status a = true
                        /\ exists e, r = Raise e /\ code_of e = status_code a))))).
Proof.
  cbv zeta. rewrite read_image_bytes_run. destruct (is_remote src).
  - right. split; [reflexivity|].
    destruct (net w (exchanges w)) as [msg resp|a]; cbn [fst snd];
      (split; [reflexivity|]).
    + left. now exists msg, resp.
    + right. exists a. split; [reflexivity|].
      destruct (is_error_status a) eqn:S; [right | left; now split].
      split; [reflexivity|]. eexists. split; [reflexivity|].
      unfold code_of. cbn [exn_response]. apply int_or_zero_id.
  - left. split; [reflexivity|]. cbn [fst snd]. split; [reflexivity|].
    unfold path_exists.
    destruct (images w src) as [b|]; [left; now exists b|].
    destruct (unreadable w src) as [msg|].
    + right. right. repeat split. now exists msg.
    + right. left. split; [reflexivity|]. now eexists.
Qed.

(** X7.  A send succeeds exactly when the image was acquired, is within the
    size limit, the gateway answered, the status is neither 4xx nor 5xx, and
    the body is JSON; the result is then that JSON value.  In particular an
    accepted request whose answer is not JSON counts as a failure. *)
Theorem X7_send_succeeds_iff (api token number sid text src : str) (fn : option str)
    (w : World) (v : json) :
  fst (send_image_with_caption_base64 api token number sid text src fn w) = Ok v
  <-> exists raw w1 r,
        read_image_bytes src w = (Ok raw, w1)
        /\ (len_bytes (ensure_jpeg_bytes raw) <= MAX_BYTES)%Z
        /\ net w1 (exchanges w1) = Got r
        /\ is_error_status r = false
        /\ body_json r = Json v.
Proof.
  split.
  - intros H. destruct (read_image_bytes src w) as [[raw|e] w1] eqn:R.
    + rewrite send_after_read with (raw := raw) (w1 := w1) in H by exact R.
      destruct (len_bytes (ensure_jpeg_bytes raw) >? MAX_BYTES)%Z eqn:G; [discriminate|].
      destruct (net w1 (exchanges w1)) as [msg|r] eqn:N; [discriminate|].
      destruct (is_error_status r) eqn:S; [discriminate|].
      destruct (body_json r) as [msg|v'] eqn:B; [discriminate|].
      cbn [fst] in H. injection H as ->.
      exists raw, w1, r. repeat split; try assumption.
      rewrite Z.gtb_ltb, Z.ltb_ge in G. exact G.
    + rewrite send_read_fails with (e := e) (w1 := w1) in H by exact R. discriminate.
  - intros (raw & w1 & r & R & G & N & S & B).
    rewrite send_after_read with (raw := raw) (w1 := w1) by exact R.
    replace (len_bytes (ensure_jpeg_bytes raw) >? MAX_BYTES)%Z with false
      by (symmetry; rewrite Z.gtb_ltb; apply Z.ltb_ge; exact G).
    now rewrite N, S, B.
Qed.

(** The status code the loop finds in the exception of a failed send: none,
    or that of the refused download of a remote image, or that of the
    response which an exception of [requests] itself carries. *)
Lemma send_failure_code (api token number sid text src : str) (fn : option str)
    (w : World) (e : exn) :
  fst (send_image_with_caption_base64 api token number sid text src fn w) = Raise e ->
  code_of e = 0%Z
  \/ (is_remote src = true /\ (400 <= code_of e < 600)%Z)
  \/ (exists n msg resp,
        net w n = NoResponse msg (Some resp) /\ code_of e = status_code resp).
Proof.
  intros H. destruct (read_image_bytes_frame src w) as [(_ & _ & _ & Nt) _].
  destruct (read_image_bytes src w) as [[raw|e'] w1] eqn:R; cbn [snd] in Nt.
  - rewrite send_after_read with (raw := raw) (w1 := w1) in H by exact R.
    destruct (len_bytes (ensure_jpeg_bytes raw) >? MAX_BYTES)%Z;
      [cbn [fst] in H; injection H as <-; now left|].
    destruct (net w1 (exchanges w1)) as [msg [resp|]|r] eqn:G.
    + cbn [fst] in H. injection H as <-. right. right.
      exists (exchanges w1), msg, resp. rewrite <- Nt. split; [exact G|].
      unfold code_of. cbn [exn_response]. apply int_or_zero_id.
    + cbn [fst] in H. injection H as <-. now left.
    + destruct (is_error_status r); [cbn [fst] in H; injection H as <-; now left|].
      destruct (body_json r); [|discriminate].
      cbn [fst] in H. injection H as <-. now left.
  - rewrite send_read_fails with (e := e') (w1 := w1) in H by exact R.
    cbn [fst] in H. injection H as ->.
    rewrite read_image_bytes_run in R. destruct (is_remote src) eqn:Rm.
    + destruct (net w (exchanges w)) as [msg [resp|]|r] eqn:G.
      * injection R as <- _. right. right. exists (exchanges w), msg, resp.
        split; [exact G|]. unfold code_of. cbn [exn_response]. apply int_or_zero_id.
      * injection R as <- _. now left.
      * destruct (is_error_status r) eqn:S; [|discriminate].
        injection R as <- _. right. left. split; [reflexivity|].
        unfold code_of. cbn [exn_response]. rewrite int_or_zero_id.
        unfold is_error_status in S. apply andb_true_iff in S as [S1 S2].
        apply Z.leb_le in S1. apply Z.ltb_lt in S2. lia.
    + destruct (images w src), (unreadable w src); try discriminate;
        injection R as <- _; now left.
Qed.

End SendShape.

(** ** What a run does, turn by turn *)

Definition is_sleep (ev : event) : bool :=
  match ev with Sleep => true | _ => false end.

(** The phone numbers of the requests in a trace, in order. *)
Definition post_numbers (evs : list event) : list str :=
  flat_map (fun ev => match ev with Post _ _ b => [p_number b] | _ => [] end) evs.

(** [l] is [l'] with some elements left out. *)
Inductive subseq {A : Type} : list A -> list A -> Prop :=
| subseq_nil : subseq [] []
| subseq_skip x l l' : subseq l l' -> subseq l (x :: l')
| subseq_take x l l' : subseq l l' -> subseq (x :: l) (x :: l').

Section LoopShape.

Context {U : Unicode} {P : Pillow} {L : PathLib}.

(** The parts of a request that do not depend on the contact. *)
Definition post_ok (cfg : Settings) (ev : event) : Prop :=
  match ev with
  | Post url authorization body =>
      url = rstrip_chars (lit "/") (API_V1 cfg) ++ lit "/messages"
      /\ authorization = lit "Bearer " ++ TOKEN cfg
      /\ p_serviceId body = SRVID cfg
      /\ p_file_mimetype body = lit "image/jpeg"
      /\ p_file_name body = file_name (IMAGE cfg) None
  | _ => True
  end.

(** A record as the loop can write it, when the network behaves as [net]. *)
Definition record_ok (cfg : Settings) (net : nat -> http_outcome) (o : Outcome) : Prop :=
  (o_status o = lit "ENVIADO" /\ o_http o = 200%Z)
  \/ (o_status o = lit "FALHA"
      /\ (o_http o = 0%Z
          \/ (is_remote (IMAGE cfg) = true /\ (400 <= o_http o < 600)%Z)
          \/ (exists n msg resp,
                net n = NoResponse msg (Some resp) /\ o_http o = status_code resp))).

Lemma iteration_trace (cfg : Settings) (total i : nat) (c : Contact) (w : World) :
  exists posts,
    trace (snd (iteration cfg total i c w))
    = trace w ++ ReadImage (IMAGE cfg) :: posts
      ++ (if DELAY_positive cfg && (i <? total)%nat then [Sleep] else [])
    /\ (posts = [] \/ exists jpg, posts = [request_of cfg c jpg]).
Proof.
  rewrite iteration_run. cbn [snd]. unfold after_turn, append_outcome.
  rewrite append_row_run. cbn [snd].
  destruct (send_for_frame cfg c w) as [_ [T|[jpg T]]].
  - exists []. split; [|now left].
    destruct (DELAY_positive cfg && (i <? total)%nat);
      cbn [trace log_event write_text]; rewrite T, <- ?app_assoc; reflexivity.
  - exists [request_of cfg c jpg]. split; [|right; now exists jpg].
    destruct (DELAY_positive cfg && (i <? total)%nat);
      cbn [trace log_event write_text]; rewrite T, <- ?app_assoc; reflexivity.
Qed.

Lemma dispatch_from_step (cfg : Settings) (total i : nat) (c : Contact)
    (cs : list Contact) (w : World) :
  dispatch_from cfg total i (c :: cs) w
  = dispatch_from cfg total (S i) cs (snd (iteration cfg total i c w)).
Proof. cbn [dispatch_from]. unfold bind. now rewrite iteration_run. Qed.

Lemma post_numbers_app (a b : list event) :
  post_numbers (a ++ b) = post_numbers a ++ post_numbers b.
Proof. apply flat_map_app. Qed.

Lemma dispatch_from_trace (cfg : Settings) (total : nat) (cs : list Contact) :
  forall i w,
  exists evs,
    trace (snd (dispatch_from cfg total i cs w)) = trace w ++ evs
    /\ subseq (post_numbers evs) (map telefone cs)
    /\ Forall (post_ok cfg) evs
    /\ List.length (filter is_sleep evs)
       = (if DELAY_positive cfg then Nat.min (List.length cs) (total - i) else 0)%nat.
Proof.
  induction cs as [|c cs IH]; intros i w.
  - exists []. cbn. rewrite app_nil_r. repeat split; try constructor.
    now destruct (DELAY_positive cfg).
  - rewrite dispatch_from_step.
    destruct (iteration_trace cfg total i c w) as (posts & T & Hp).
    destruct (IH (S i) (snd (iteration cfg total i c w))) as (evs & T' & S' & F' & N').
    set (sleeps := if DELAY_positive cfg && (i <? total)%nat then [Sleep] else []) in *.
    exists ((ReadImage (IMAGE cfg) :: posts ++ sleeps) ++ evs).
    assert (Hs : post_numbers sleeps = [] /\ Forall (post_ok cfg) sleeps
                 /\ filter is_sleep sleeps = sleeps).
    { unfold sleeps. destruct (DELAY_positive cfg && (i <? total)%nat);
        repeat split; repeat constructor. }
    destruct Hs as (Hs1 & Hs2 & Hs3).
    split; [rewrite T', T, <- app_assoc; reflexivity|]. split; [|split].
    + rewrite post_numbers_app.
      change (post_numbers (ReadImage (IMAGE cfg) :: posts ++ sleeps))
        with (post_numbers (posts ++ sleeps)).
      rewrite post_numbers_app, Hs1, app_nil_r. cbn [map].
      destruct Hp as [->|[jpg ->]]; [now apply subseq_skip|].
      now apply subseq_take.
    + apply Forall_app. split; [|exact F'].
      constructor; [exact I|]. apply Forall_app. split; [|exact Hs2].
      destruct Hp as [->|[jpg ->]]; constructor; [|constructor].
      repeat split.
    + rewrite filter_app, length_app, N'. cbn [filter is_sleep].
      rewrite filter_app, Hs3.
      assert (Hq : filter is_sleep posts = [])
        by (destruct Hp as [->|[jpg ->]]; reflexivity).
      rewrite Hq. cbn [app List.length]. unfold sleeps.
      destruct (DELAY_positive cfg); cbn [andb]; [|reflexivity].
      destruct (Nat.ltb_spec i total); cbn [List.length]; lia.
Qed.

Lemma dispatch_from_results (cfg : Settings) (total : nat) (cs : list Contact) :
  forall i w,
  exists rs,
    Forall2 (fun c r => exists w0, net w0 = net w /\ r = fst (send_for cfg c w0)) cs rs
    /\ textfiles (snd (dispatch_from cfg total i cs w)) LEDGER
       = ledger_with (textfiles w LEDGER) (outcomes i cs rs).
Proof.
  induction cs as [|c cs IH]; intros i w.
  - exists []. split; [constructor | reflexivity].
  - rewrite dispatch_from_step.
    destruct (iteration_effect cfg total i c w) as (E & _ & _ & _ & N & _).
    destruct (IH (S i) (snd (iteration cfg total i c w))) as (rs & F & T).
    exists (fst (send_for cfg c w) :: rs). split.
    + constructor; [now exists w|].
      eapply Forall2_impl; [|exact F].
      intros c' r' (w0 & N0 & R0). exists w0. split; [now rewrite N0 | exact R0].
    + rewrite T, E. cbn [outcomes]. apply (ledger_with_app _ [_]).
Qed.

Lemma outcomes_records (cfg : Settings) (w : World) (cs : list Contact) :
  forall i rs,
  Forall2 (fun c r => exists w0, net w0 = net w /\ r = fst (send_for cfg c w0)) cs rs ->
  List.length (outcomes i cs rs) = List.length cs
  /\ Forall (record_ok cfg (net w)) (outcomes i cs rs).
Proof.
  induction cs as [|c cs IH]; intros i rs F;
    inversion F as [|? r ? rs' (w0 & N0 & Hr) F']; subst.
  - split; [reflexivity | constructor].
  - destruct (IH (S i) rs' F') as [A B]. cbn [outcomes List.length]. rewrite A.
    split; [reflexivity|]. constructor; [|exact B].
    destruct (fst (send_for cfg c w0)) as [v|e] eqn:S.
    + left. now split.
    + right. split; [reflexivity|]. cbn [outcome_of o_http]. rewrite <- N0.
      exact (send_failure_code _ _ _ _ _ _ _ _ S).
Qed.


(** X9.  The requests of a run go out in the order of the contacts, at most
    one for each contact and never a second one after a failure; all of
    them go to the messages endpoint of the configured URL with the bearer
    token, the service identifier, the JPEG media type and the same file
    name. *)
Theorem X9_requests_follow_the_contacts (cfg : Settings) (cs : list Contact) (w : World) :
  exists evs,
    trace (snd (dispatch_all cfg cs w)) = trace w ++ evs
    /\ subseq (post_numbers evs) (map telefone cs)
    /\ Forall (post_ok cfg) evs.
Proof.
  destruct (dispatch_from_trace cfg (List.length cs) cs 1 w) as (evs & T & S & F & _).
  exists evs. repeat split; assumption.
Qed.


End LoopShape.

(** ** How the main block ends *)

Section MainShape.

Context {U : Unicode} {P : Pillow} {L : PathLib}.

(** Everything the main block checks before the loop. *)
Definition ready (getenv : str -> option str) (args : Args) (w : World) : Prop :=
  str_or (getenv (lit "DIGISAC_API_URL")) [] <> []
  /\ rstrip_chars (lit "/") (str_or (getenv (lit "DIGISAC_API_URL")) []) <> []
  /\ str_or (getenv (lit "DIGISAC_TOKEN")) [] <> []
  /\ str_or (getenv (lit "DIGISAC_SERVICE")) [] <> []
  /\ (is_remote (str_or (getenv (lit "IMAGE_SRC")) (lit "banner.jpg")) = true
      \/ path_exists w (str_or (getenv (lit "IMAGE_SRC")) (lit "banner.jpg")) = true)
  /\ exists table rows,
       tables w (arg_file args) = Some table /\ load_contacts_csv table = Loaded rows.

Lemma nonempty_false (s : str) : nonempty s = false <-> s = [].
Proof. destruct s; simpl; split; congruence. Qed.

Lemma main_cases (getenv : str -> option str) (delay_positive : bool) (args : Args)
    (w : World) :
  (ready getenv args w
   /\ exists table rows,
        tables w (arg_file args) = Some table /\ load_contacts_csv table = Loaded rows
        /\ main getenv delay_positive args w
           = (Finished,
              snd (dispatch_all (settings_of getenv delay_positive)
                     (apply_limit (arg_limit args) rows) w)))
  \/ (~ ready getenv args w
      /\ fst (main getenv delay_positive args w) <> Finished
      /\ snd (main getenv delay_positive args w) = w).
Proof.
  unfold main, ready. set (cfg := settings_of getenv delay_positive).
  change (rstrip_chars (lit "/") (str_or (getenv (lit "DIGISAC_API_URL")) []))
    with (API_V1 cfg).
  change (str_or (getenv (lit "DIGISAC_TOKEN")) []) with (TOKEN cfg).
  change (str_or (getenv (lit "DIGISAC_SERVICE")) []) with (SRVID cfg).
  change (str_or (getenv (lit "IMAGE_SRC")) (lit "banner.jpg")) with (IMAGE cfg).
  destruct (nonempty (API_V1 cfg)) eqn:A; cbn [negb orb];
    [|right; apply nonempty_false in A; repeat split;
      [intros (_ & X & _); contradiction | discriminate]].
  destruct (nonempty (TOKEN cfg)) eqn:T; cbn [negb orb];
    [|right; apply nonempty_false in T; repeat split;
      [intros (_ & _ & X & _); contradiction | discriminate]].
  destruct (nonempty (SRVID cfg)) eqn:S; cbn [negb orb];
    [|right; apply nonempty_false in S; repeat split;
      [intros (_ & _ & _ & X & _); contradiction | discriminate]].
  apply nonempty_true in A, T, S.
  assert (A0 : str_or (getenv (lit "DIGISAC_API_URL")) [] <> []).
  { intros E. apply A. unfold cfg. cbn [API_V1 settings_of]. now rewrite E. }
  destruct (is_remote (IMAGE cfg)) eqn:R; cbn [negb andb].
  - destruct (tables w (arg_file args)) as [table|] eqn:Tb;
      [|right; repeat split;
        [intros (_ & _ & _ & _ & _ & t & r & X & _); discriminate | discriminate]].
    destruct (load_contacts_csv table) as [h|rows] eqn:Ld;
      [right; repeat split; [|discriminate];
       intros (_ & _ & _ & _ & _ & t & r & X & Y); injection X as X; subst t;
       rewrite Ld in Y; discriminate|].
    left. split; [repeat split; auto; now exists table, rows|].
    exists table, rows. split; [reflexivity|]. split; [exact Ld|].
    cbv zeta. fold cfg. now rewrite dispatch_all_ends.
  - destruct (path_exists w (IMAGE cfg)) eqn:Im; cbn [negb];
      [|right; repeat split; [|discriminate];
        intros (_ & _ & _ & _ & [X|X] & _); discriminate].
    destruct (tables w (arg_file args)) as [table|] eqn:Tb;
      [|right; repeat split;
        [intros (_ & _ & _ & _ & _ & t & r & X & _); discriminate | discriminate]].
    destruct (load_contacts_csv table) as [h|rows] eqn:Ld;
      [right; repeat split; [|discriminate];
       intros (_ & _ & _ & _ & _ & t & r & X & Y); injection X as X; subst t;
       rewrite Ld in Y; discriminate|].
    left. split; [repeat split; auto; now exists table, rows|].
    exists table, rows. split; [reflexivity|]. split; [exact Ld|].
    cbv zeta. fold cfg. now rewrite dispatch_all_ends.
Qed.

Lemma main_finishes_iff_ready (getenv : str -> option str) (delay_positive : bool)
    (args : Args) (w : World) :
  (fst (main getenv delay_positive args w) = Finished <-> ready getenv args w)
  /\ (fst (main getenv delay_positive args w) = Finished
      \/ snd (main getenv delay_positive args w) = w).
Proof.
  destruct (main_cases getenv delay_positive args w)
    as [(R & t & r & _ & _ & E)|(R & F & S)].
  - rewrite E. split; [tauto | now left].
  - split; [tauto | now right].
Qed.

Lemma main_block_finishes_iff_ready (float_gt_zero : str -> result bool)
    (getenv : str -> option str) (args : Args) (w : World) :
  (fst (main_block float_gt_zero getenv args w) = Finished
   <-> (getenv (lit "DELAY_SECONDS") = None
        \/ getenv (lit "DELAY_SECONDS") = Some []
        \/ exists s d, getenv (lit "DELAY_SECONDS") = Some s /\ float_gt_zero s = Ok d)
       /\ ready getenv args w)
  /\ (fst (main_block float_gt_zero getenv args w) = Finished
      \/ snd (main_block float_gt_zero getenv args w) = w).
Proof.
  unfold main_block, delay_of.
  destruct (getenv (lit "DELAY_SECONDS")) as [[|c s]|] eqn:D.
  - destruct (main_finishes_iff_ready getenv false args w) as [A B].
    split; [|exact B]. rewrite A. split; [intros R; split; auto | tauto].
  - destruct (float_gt_zero (c :: s)) as [d|e] eqn:Fl.
    + destruct (main_finishes_iff_ready getenv d args w) as [A B].
      split; [|exact B]. rewrite A. split; [|tauto].
      intros R. split; [|exact R]. right. right. now exists (c :: s), d.
    + split; [|now right]. cbn [fst]. split; [discriminate|].
      intros [[X|[X|(s' & d & X & Y)]] _]; try discriminate.
      injection X as <-. rewrite Fl in Y. discriminate.
  - destruct (main_finishes_iff_ready getenv false args w) as [A B].
    split; [|exact B]. rewrite A. split; [intros R; split; auto | tauto].
Qed.


Lemma file_text_ledger_with (f : option str) (os : list Outcome) :
  exists added, file_text (ledger_with f os) = file_text f ++ added.
Proof.
  destruct os as [|o os].
  - exists []. cbn. now rewrite app_nil_r.
  - eexists. cbn [ledger_with file_text]. reflexivity.
Qed.


Lemma apply_limit_firstn (limit : Z) (rows : list Contact) :
  apply_limit limit rows
  = firstn (if (limit >? 0)%Z then Nat.min (Z.to_nat limit) (List.length rows)
            else List.length rows) rows.
Proof.
  unfold apply_limit. destruct (limit >? 0)%Z.
  - destruct (Nat.le_ge_cases (Z.to_nat limit) (List.length rows)) as [H|H].
    + now rewrite Nat.min_l.
    + rewrite Nat.min_r by exact H. now rewrite firstn_all, firstn_all2.
  - now rewrite firstn_all.
Qed.

(** X13.  The limit: a positive limit k makes the run handle the first k
    contacts of the file, or all of them when there are fewer; a limit of
    zero or less is no limit.  The contacts handled are read off the
    acquisitions and the records of the run. *)
Theorem X13_limit_takes_a_prefix (getenv : str -> option str) (delay_positive : bool)
    (args : Args) (w : World) (table : list (list str)) (rows : list Contact) :
  tables w (arg_file args) = Some table ->
  load_contacts_csv table = Loaded rows ->
  fst (main getenv delay_positive args w) = Finished ->
  let k := if (arg_limit args >? 0)%Z
           then Nat.min (Z.to_nat (arg_limit args)) (List.length rows)
           else List.length rows in
  let w' := snd (main getenv delay_positive args w) in
  exists evs os,
    trace w' = trace w ++ evs
    /\ List.length (filter is_read evs) = k
    /\ textfiles w' LEDGER = ledger_with (textfiles w LEDGER) os
    /\ map o_telefone os = map telefone (firstn k rows).
Proof.
  intros Tb Ld F k w'. subst w'.
  destruct (main_cases getenv delay_positive args w)
    as [(_ & t & r & Tb' & Ld' & E)|(_ & F' & _)]; [|contradiction].
  rewrite Tb in Tb'. injection Tb' as <-. rewrite Ld in Ld'. injection Ld' as <-.
  rewrite E. cbn [snd]. unfold dispatch_all.
  destruct (dispatch_from_effect (settings_of getenv delay_positive)
              (List.length (apply_limit (arg_limit args) rows))
              (apply_limit (arg_limit args) rows) 1 w) as (_ & rs & evs & H).
  cbn zeta in H. destruct H as (Hl & Lg & _ & _ & _ & _ & T & Rd & _).
  destruct (outcomes_index (apply_limit (arg_limit args) rows) 1 rs Hl) as (_ & _ & Ph).
  exists evs, (outcomes 1 (apply_limit (arg_limit args) rows) rs).
  repeat split; try assumption.
  - rewrite Rd, repeat_length, apply_limit_firstn. fold k.
    apply firstn_length_le. unfold k. destruct (arg_limit args >? 0)%Z; lia.
  - rewrite Ph, apply_limit_firstn. reflexivity.
Qed.

End MainShape.

(** ** The header of the contact file *)

Lemma filter_length_le_rows (p : list str -> bool) (l : list (list str)) :
  (List.length (filter p l) <= List.length l)%nat.
Proof.
  induction l as [|x l IH]; cbn [filter List.length]; [lia|].
  destruct (p x); cbn [List.length]; lia.
Qed.

Section HeaderShape.

Context {U : Unicode}.

Lemma first_index_none (p : str -> bool) (l : list str) :
  forall i, first_index p l i = None <-> Forall (fun x => p x = false) l.
Proof.
  induction l as [|x l IH]; intros i; cbn [first_index].
  - split; [constructor | reflexivity].
  - destruct (p x) eqn:E.
    + split; [discriminate|]. intros H. inversion H; congruence.
    + rewrite IH. split; [now constructor | now inversion 1].
Qed.

Lemma first_index_some (p : str -> bool) (l : list str) :
  forall i k, first_index p l i = Some k ->
  (i <= k < i + List.length l)%nat
  /\ p (nth (k - i) l []) = true
  /\ forall j, (j < k - i)%nat -> p (nth j l []) = false.
Proof.
  induction l as [|x l IH]; intros i k; cbn [first_index]; [discriminate|].
  destruct (p x) eqn:E.
  - intros H. injection H as <-. rewrite Nat.sub_diag. cbn [List.length nth].
    split; [lia|]. split; [exact E|]. intros j Hj. lia.
  - intros H. destruct (IH (S i) k H) as (A & B & C). cbn [List.length].
    replace (k - i)%nat with (S (k - S i)) by lia. cbn [nth].
    split; [lia|]. split; [exact B|].
    intros [|j] Hj; [exact E|]. cbn [nth]. apply C. lia.
Qed.

(** X14.  What [load_contacts_csv] makes of the header: when no cell of the
    header, once stripped and lower-cased, is one of the phone aliases (an
    empty file included) the load fails and reports the cleaned header;
    otherwise the phone column is the first cell that is an alias, and the
    contacts come from the data rows, at most one per row. *)
Theorem X14_phone_column_is_the_first_alias (table : list (list str)) :
  let header := map clean_header (hd [] table) in
  match load_contacts_csv table with
  | MissingPhoneColumn h =>
      h = header /\ Forall (fun c => mem_str c PHONE_ALIASES = false) header
  | Loaded rows =>
      exists idx_tel,
        (idx_tel < List.length header)%nat
        /\ mem_str (nth idx_tel header []) PHONE_ALIASES = true
        /\ (forall j, (j < idx_tel)%nat -> mem_str (nth j header []) PHONE_ALIASES = false)
        /\ rows = collect_rows idx_tel (first_index (fun h => mem_str h NAME_ALIASES) header 0)
                    (tl table)
        /\ (List.length rows <= List.length (tl table))%nat
  end.
Proof.
  intros header. unfold load_contacts_csv. fold header.
  destruct (first_index (fun h => mem_str h PHONE_ALIASES) header 0) as [k|] eqn:E.
  - destruct (first_index_some _ _ _ E) as (A & B & C).
    rewrite Nat.sub_0_r in B, C. exists k.
    split; [lia|]. split; [exact B|]. split; [exact C|]. split; [reflexivity|].
    rewrite collect_rows_filter, length_map. apply filter_length_le_rows.
  - split; [reflexivity|]. now apply (first_index_none _ header 0).
Qed.

End HeaderShape.

(** ** The file name and the URL of a request *)

Section RequestShape.

Context {U : Unicode} {P : Pillow} {L : PathLib}.

Lemma file_name_ends_in_jpg (img_src : str) (filename : option str) :
  endswith (lit ".jpg") (lower (file_name img_src filename))
  || endswith (lit ".jpeg") (lower (file_name img_src filename)) = true.
Proof.
  rewrite file_name_cases. cbn zeta.
  destruct (endswith (lit ".jpg") (lower (base_name img_src filename))
            || endswith (lit ".jpeg") (lower (base_name img_src filename))) eqn:K.
  - exact K.
  - now rewrite lower_keeps_jpg.
Qed.

(** X15.  The file name of the attachment is never empty, and it is stable:
    given back as the explicit name, for whatever source, it comes out
    unchanged. *)
Theorem X15_file_name_is_stable (img_src : str) (filename : option str) :
  file_name img_src filename <> []
  /\ forall other_src,
       file_name other_src (Some (file_name img_src filename))
       = file_name img_src filename.
Proof.
  pose proof (file_name_ends_in_jpg img_src filename) as K.
  set (f := file_name img_src filename) in *.
  assert (N : f <> []).
  { intros E. rewrite E in K. rewrite (lower_ascii [] eq_refl) in K. discriminate. }
  split; [exact N|]. intros other_src.
  assert (B : base_name other_src (Some f) = f).
  { unfold base_name, str_or. destruct f; [contradiction | reflexivity]. }
  rewrite file_name_cases. cbn zeta. now rewrite B, K.
Qed.

Lemma rstrip_chars_snoc (cs s : str) (c : char) :
  mem_chr c cs = true -> rstrip_chars cs (s ++ [c]) = rstrip_chars cs s.
Proof.
  intros H. unfold rstrip_chars, lstrip_chars. rewrite rev_app_distr.
  cbn [rev app dropwhile]. now rewrite H.
Qed.

Lemma rstrip_slash (api : str) :
  rstrip_chars (lit "/") (api ++ lit "/") = rstrip_chars (lit "/") api.
Proof. exact (@rstrip_chars_snoc (lit "/") api 47%N eq_refl). Qed.

(** X16.  A trailing slash in the base URL makes no difference to a send:
    the request goes to the same address and the send ends the same way. *)
Theorem X16_trailing_slash_is_ignored (api token number sid text src : str)
    (fn : option str) (w : World) :
  send_image_with_caption_base64 (api ++ lit "/") token number sid text src fn w
  = send_image_with_caption_base64 api token number sid text src fn w.
Proof.
  unfold send_image_with_caption_base64. now rewrite rstrip_slash.
Qed.

End RequestShape.

(** ** Reading the [.env] file *)

Section EnvShape.

Context {U : Unicode}.

(** The value the first line of [lines] that assigns [k] gives it. *)
Fixpoint first_assignment (lines : list str) (k : str) : option str :=
  match lines with
  | [] => None
  | line :: rest =>
      match match_env_line line with
      | Some (k', v) => if str_eqb k k' then Some (unquote v) else first_assignment rest k
      | None => first_assignment rest k
      end
  end.

(** No line of [lines] gives a value that holds the NUL character. *)
Definition nul_free (lines : list str) : bool :=
  forallb (fun line => match match_env_line line with
                       | Some (_, v) => negb (has_nul (unquote v))
                       | None => true
                       end) lines.

Lemma load_env_lines_keeps (lines : list str) :
  forall env k x, env k = Some x -> snd (load_env_lines lines env) k = Some x.
Proof.
  induction lines as [|line rest IH]; intros env k x H; cbn [load_env_lines]; [exact H|].
  destruct (match_env_line line) as [[k' v]|]; [|now apply IH].
  unfold setdefault. destruct (env k') eqn:E; [now apply IH|].
  destruct (has_nul (unquote v)); [exact H|].
  apply IH. destruct (str_eqb k k') eqn:K; [|exact H].
  apply str_eqb_eq in K. subst k'. congruence.
Qed.

Lemma load_env_lines_nul_free (lines : list str) :
  forall env k,
  nul_free lines = true ->
  fst (load_env_lines lines env) = None
  /\ snd (load_env_lines lines env) k
     = match env k with
       | Some x => Some x
       | None => first_assignment lines k
       end.
Proof.
  induction lines as [|line rest IH]; intros env k H;
    cbn [load_env_lines first_assignment fst snd];
    [split; [reflexivity | now destruct (env k)]|].
  cbn [nul_free forallb] in H. apply andb_true_iff in H as [Hl Hr].
  destruct (match_env_line line) as [[k' v]|]; [|now apply IH].
  unfold setdefault. destruct (env k') eqn:E.
  - destruct (IH env k Hr) as [A B]. split; [exact A|]. rewrite B.
    destruct (env k) eqn:Ek; [reflexivity|].
    destruct (str_eqb k k') eqn:K; [|reflexivity].
    apply str_eqb_eq in K. subst k'. congruence.
  - apply negb_true_iff in Hl. rewrite Hl.
    destruct (IH (fun k'0 => if str_eqb k'0 k' then Some (unquote v) else env k'0) k Hr)
      as [A B].
    split; [exact A|]. rewrite B. destruct (str_eqb k k') eqn:K.
    + apply str_eqb_eq in K. subst k'. now rewrite E.
    + reflexivity.
Qed.

(** X17.  After [load_env_file] a variable that the environment already had
    keeps its value, whatever the file holds.  When no line gives a value
    that holds the NUL character, the whole file is read, and a variable
    that was unset has the value of the first line that assigns it, or stays
    unset when there is none: later lines never override earlier ones.  A
    line that gives a value holding NUL to a variable that is unset ends the
    loop with a [ValueError]: the lines after it are not read.  A missing
    file changes nothing. *)
Theorem X17_environment_wins_then_first_line (env : str -> option str) :
  (forall file k x, env k = Some x -> snd (load_env_file file env) k = Some x)
  /\ (forall lines k,
        nul_free lines = true ->
        fst (load_env_file (Some lines) env) = None
        /\ snd (load_env_file (Some lines) env) k
           = match env k with
             | Some x => Some x
             | None => first_assignment lines k
             end)
  /\ (forall line rest k v,
        match_env_line line = Some (k, v) -> env k = None -> has_nul (unquote v) = true ->
        load_env_file (Some (line :: rest)) env
        = (Some (ValueError (lit "embedded null byte")), env))
  /\ load_env_file None env = (None, env).
Proof.
  split; [|split; [|split]].
  - intros [lines|] k x H; cbn [load_env_file snd]; [|exact H].
    now apply load_env_lines_keeps.
  - intros lines k H. cbn [load_env_file]. now apply load_env_lines_nul_free.
  - intros line rest k v M E N. cbn [load_env_file load_env_lines].
    rewrite M. unfold setdefault. now rewrite E, N.
  - reflexivity.
Qed.

Lemma takewhile_all (p : char -> bool) (s : str) : forallb p (takewhile p s) = true.
Proof.
  induction s as [|c s IH]; cbn [takewhile]; [reflexivity|].
  destruct (p c) eqn:E; [|reflexivity]. cbn [forallb]. now rewrite E.
Qed.

(** X18.  The key of a line that matches is an identifier: it begins with
    an ASCII letter or an underscore and goes on with ASCII letters, digits
    and underscores.  The value holds no newline. *)
Theorem X18_matched_key_is_an_identifier (line k v : str) :
  match_env_line line = Some (k, v) ->
  (exists c t, k = c :: t /\ is_key_start c = true)
  /\ forallb is_key_char k = true
  /\ forallb (fun c => negb (chr_eqb c 10%N)) v = true.
Proof.
  unfold match_env_line.
  destruct (dropwhile isspace line) as [|c s] eqn:D; [discriminate|].
  destruct (is_key_start c) eqn:K; [|discriminate].
  destruct (dropwhile isspace (dropwhile is_key_char (c :: s))) as [|e rest];
    [discriminate|].
  destruct (chr_eqb e 61%N); [|discriminate].
  destruct (forallb isspace _); [|discriminate].
  intros H. injection H as <- <-. repeat split.
  - cbn [takewhile]. unfold is_key_char at 1. rewrite K. cbn [orb]. now eexists _, _.
  - exact (takewhile_all is_key_char (c :: s)).
  - apply takewhile_all.
Qed.

Lemma dropwhile_none (p : char -> bool) (s : str) :
  match s with [] => True | c :: _ => p c = false end -> dropwhile p s = s.
Proof. destruct s as [|c s]; cbn [dropwhile]; [reflexivity|]. now intros ->. Qed.

Lemma takewhile_app_stop (p : char -> bool) (a b : str) :
  forallb p a = true -> match b with [] => True | c :: _ => p c = false end ->
  takewhile p (a ++ b) = a /\ dropwhile p (a ++ b) = b.
Proof.
  intros Ha Hb. induction a as [|x a IH]; cbn [app].
  - destruct b as [|c b]; [split; reflexivity|]. cbn [takewhile dropwhile].
    now rewrite Hb.
  - cbn [forallb] in Ha. apply andb_true_iff in Ha as [Hx Ha].
    destruct (IH Ha) as [A B]. cbn [takewhile dropwhile]. now rewrite Hx, A, B.
Qed.

Lemma key_char_not_space (c : char) : is_key_char c = true -> isspace c = false.
Proof.
  intros H.
  assert (R : (48 <= c <= 57 \/ 65 <= c <= 90 \/ 97 <= c <= 122 \/ c = 95)%N).
  { unfold is_key_char, is_key_start, ascii_isdigit in H.
    rewrite !orb_true_iff, !andb_true_iff, !N.leb_le, N.eqb_eq in H. lia. }
  rewrite isspace_ascii by (apply N.ltb_lt; lia).
  unfold ascii_isspace. apply orb_false_iff. split; apply andb_false_iff.
  - right. apply N.leb_gt. lia.
  - right. apply N.leb_gt. lia.
Qed.

(** X19.  Writing and reading back one assignment: for a key that is an
    identifier and a value without newline that does not begin with
    whitespace, the line made of the key, an equals sign, the value and a
    newline matches and gives back exactly that key and that value, trailing
    blanks of the value included. *)
Theorem X19_assignment_line_reads_back (k v : str) :
  (exists c t, k = c :: t /\ is_key_start c = true) ->
  forallb is_key_char k = true ->
  forallb (fun c => negb (chr_eqb c 10%N)) v = true ->
  match v with [] => True | c :: _ => isspace c = false end ->
  match_env_line (k ++ lit "=" ++ v ++ [10%N]) = Some (k, v).
Proof.
  intros (c & t & -> & Kc) Kk Vn Vs.
  assert (Sc : isspace c = false).
  { apply key_char_not_space. unfold is_key_char. now rewrite Kc. }
  assert (Eq : isspace 61%N = false) by (rewrite isspace_ascii; reflexivity).
  assert (Nl : isspace 10%N = true) by (rewrite isspace_ascii; reflexivity).
  unfold match_env_line. cbn [app]. cbn [dropwhile]. rewrite Sc, Kc.
  change (c :: t ++ lit "=" ++ v ++ [10%N]) with ((c :: t) ++ 61%N :: v ++ [10%N]).
  destruct (takewhile_app_stop is_key_char (c :: t) (61%N :: v ++ [10%N]) Kk eq_refl)
    as [A B].
  rewrite A, B. cbn [dropwhile]. rewrite Eq.
  change (chr_eqb 61 61)%N with true. cbn iota.
  assert (D : dropwhile isspace (v ++ [10%N]) = v ++ [10%N] \/ v = []).
  { destruct v as [|x v]; [now right|]. left. cbn [app dropwhile]. now rewrite Vs. }
  destruct D as [D| ->].
  - rewrite D.
    destruct (takewhile_app_stop (fun x => negb (chr_eqb x 10%N)) v [10%N] Vn eq_refl)
      as [A' B'].
    rewrite A', B'. cbn [forallb]. now rewrite Nl.
  - cbn [app dropwhile]. now rewrite Nl.
Qed.

(** X20.  A line that is blank, or whose first character after the leading
    whitespace is neither an ASCII letter nor an underscore (a comment, for
    one), assigns nothing. *)
Theorem X20_other_lines_are_skipped (line : str) :
  match dropwhile isspace line with
  | [] => True
  | c :: _ => is_key_start c = false
  end ->
  match_env_line line = None
  /\ forall rest env, load_env_lines (line :: rest) env = load_env_lines rest env.
Proof.
  intros H.
  assert (M : match_env_line line = None).
  { unfold match_env_line. destruct (dropwhile isspace line) as [|c s]; [reflexivity|].
    now rewrite H. }
  split; [exact M|]. intros rest env. cbn [load_env_lines]. now rewrite M.
Qed.

End EnvShape.

(** ** Unquoting a value *)

Lemma endswith_snoc (c : char) (s : str) : endswith [c] (s ++ [c]) = true.
Proof. apply (endswith_app [c] s). Qed.

(** X21.  A value wrapped in a pair of double quotes or in a pair of single
    quotes loses exactly the pair, whatever lies between; a lone quote
    character becomes the empty value; a value that does not begin with a
    quote character is left as it is. *)
Theorem X21_unquote_removes_one_pair (s : str) :
  unquote (34%N :: s ++ [34%N]) = s
  /\ unquote (39%N :: s ++ [39%N]) = s
  /\ unquote [34%N] = [] /\ unquote [39%N] = []
  /\ (match s with
      | [] => True
      | c :: _ => chr_eqb 34%N c = false /\ chr_eqb 39%N c = false
      end -> unquote s = s).
Proof.
  assert (Q : forall q, strip_ends (q :: s ++ [q]) = s).
  { intros q. unfold strip_ends. cbn [tl]. apply removelast_last. }
  repeat split.
  - unfold unquote. change (34%N :: s ++ [34%N]) with ((34%N :: s) ++ [34%N]) at 2.
    rewrite endswith_snoc. cbn [startswith]. change (chr_eqb 34 34)%N with true.
    cbn [andb orb]. apply Q.
  - unfold unquote. change (39%N :: s ++ [39%N]) with ((39%N :: s) ++ [39%N]) at 3 4.
    rewrite endswith_snoc. cbn [startswith]. change (chr_eqb 39 39)%N with true.
    change (chr_eqb 34 39)%N with false. cbn [andb orb]. apply Q.
  - destruct s as [|c t]; [reflexivity|]. intros [A B].
    unfold unquote. cbn [startswith]. now rewrite A, B.
Qed.

(** ** The further properties at the samples *)

Definition limit_one_args : Args := {| arg_file := lit "teste.csv"; arg_limit := 1 |}.

(** X13 at the sample table with a limit of one: only Ana is handled. *)
Lemma X13_witness :
  exists evs os,
    trace (snd (main sample_env false limit_one_args
                  (sample_world small_image sample_table answer_200)))
    = trace (sample_world small_image sample_table answer_200) ++ evs
    /\ List.length (filter is_read evs) = 1%nat
    /\ textfiles (snd (main sample_env false limit_one_args
                         (sample_world small_image sample_table answer_200))) LEDGER
       = ledger_with (textfiles (sample_world small_image sample_table answer_200) LEDGER) os
    /\ map o_telefone os = map telefone (firstn 1 [ana; bea]).
Proof.
  instance_of (X13_limit_takes_a_prefix sample_env false limit_one_args
                 (sample_world small_image sample_table answer_200)
                 (table := sample_table) (rows := [ana; bea]) eq_refl eq_refl eq_refl).
Defined.

Definition token_line : str := lit "  DIGISAC_TOKEN = abc" ++ [10%N].

Definition later_token_line : str := lit "DIGISAC_TOKEN='xyz'" ++ [10%N].

Definition nul_line : str := lit "DIGISAC_SERVICE=a" ++ [0%N] ++ lit "b" ++ [10%N].

(** X17 at a file of two lines that assign the token, read into an empty
    environment: the first one wins.  With a line in front whose value
    holds NUL, nothing is read at all. *)
Lemma X17_witness :
  (fst (load_env_file (Some [token_line; later_token_line]) (fun _ => None)) = None
   /\ snd (load_env_file (Some [token_line; later_token_line]) (fun _ => None))
        (lit "DIGISAC_TOKEN") = Some (lit "abc"))
  /\ load_env_file (Some [nul_line; token_line; later_token_line]) (fun _ => None)
     = (Some (ValueError (lit "embedded null byte")), fun _ => None).
Proof.
  split.
  - instance_of (proj1 (proj2 (X17_environment_wins_then_first_line (fun _ => None)))
                   [token_line; later_token_line] (lit "DIGISAC_TOKEN") eq_refl).
  - instance_of (proj1 (proj2 (proj2 (X17_environment_wins_then_first_line (fun _ => None))))
                   nul_line [token_line; later_token_line]
                   (lit "DIGISAC_SERVICE") (lit "a" ++ [0%N] ++ lit "b")
                   eq_refl eq_refl eq_refl).
Defined.

(** X18 at a sample line. *)
Lemma X18_witness :
  (exists c t, lit "DIGISAC_TOKEN" = c :: t /\ is_key_start c = true)
  /\ forallb is_key_char (lit "DIGISAC_TOKEN") = true
  /\ forallb (fun c => negb (chr_eqb c 10%N)) (lit "abc") = true.
Proof.
  instance_of (X18_matched_key_is_an_identifier token_line
                 (k := lit "DIGISAC_TOKEN") (v := lit "abc") eq_refl).
Defined.

(** X19 at a sample assignment, with blanks at the end of the value. *)
Lemma X19_witness :
  match_env_line (lit "MESSAGE_TEXT" ++ lit "=" ++ lit "Oferta da semana  " ++ [10%N])
  = Some (lit "MESSAGE_TEXT", lit "Oferta da semana  ").
Proof.
  instance_of (@X19_assignment_line_reads_back latin1
                 (lit "MESSAGE_TEXT") (lit "Oferta da semana  ")
                 (ex_intro _ 77%N (ex_intro _ (lit "ESSAGE_TEXT") (conj eq_refl eq_refl)))
                 eq_refl eq_refl eq_refl).
Defined.

Definition comment_line : str := lit "# DIGISAC_TOKEN=abc" ++ [10%N].

(** X20 at a comment line. *)
Lemma X20_witness :
  match_env_line comment_line = None
  /\ forall rest env, load_env_lines (comment_line :: rest) env = load_env_lines rest env.
Proof. instance_of (X20_other_lines_are_skipped comment_line eq_refl). Defined.

(** X21 at a value that is not quoted. *)
Lemma X21_witness : unquote (lit "abc") = lit "abc".
Proof.
  instance_of (proj2 (proj2 (proj2 (proj2 (X21_unquote_removes_one_pair (lit "abc")))))
                 (conj eq_refl eq_refl)).
Defined.

(** ** The size of what is posted *)

Section PostedImage.

Context {U : Unicode} {P : Pillow} {L : PathLib}.

(** X22.  No request ever carries an image over the limit: whatever a send
    posts holds the base64 text of bytes, acquired in that send and passed
    through the JPEG normalization, that are at most 66,060,288 long; the
    request is for the number and, stripped, the text the send was given. *)
Theorem X22_posted_image_is_within_the_limit (api token number sid text src : str)
    (fn : option str) (w : World) :
  exists evs,
    trace (snd (send_image_with_caption_base64 api token number sid text src fn w))
    = trace w ++ evs
    /\ Forall (fun ev =>
                 match ev with
                 | Post _ _ body =>
                     (exists raw w1,
                        read_image_bytes src w = (Ok raw, w1)
                        /\ p_file_base64 body = to_base64 (ensure_jpeg_bytes raw)
                        /\ (len_bytes (ensure_jpeg_bytes raw) <= MAX_BYTES)%Z)
                     /\ p_number body = number
                     /\ p_text body = strip text
                 | _ => True
                 end) evs.
Proof.
  destruct (read_image_bytes_frame src w) as [_ T].
  destruct (read_image_bytes src w) as [[raw|e] w1] eqn:R; cbn [snd] in T.
  - rewrite send_after_read with (raw := raw) (w1 := w1) by exact R.
    destruct (len_bytes (ensure_jpeg_bytes raw) >? MAX_BYTES)%Z eqn:G.
    + exists [ReadImage src]. cbn [snd]. split; [exact T | repeat constructor].
    + assert (Le : (len_bytes (ensure_jpeg_bytes raw) <= MAX_BYTES)%Z)
        by (rewrite Z.gtb_ltb, Z.ltb_ge in G; exact G).
      exists [ReadImage src;
              request_for api token number sid text src fn (ensure_jpeg_bytes raw)].
      assert (X : forall r : result json,
                 trace (snd (r, tick (log_event
                                        (request_for api token number sid text src fn
                                           (ensure_jpeg_bytes raw)) w1)))
                 = trace w
                   ++ [ReadImage src;
                       request_for api token number sid text src fn (ensure_jpeg_bytes raw)]).
      { intros r. cbn [snd trace tick log_event]. rewrite T, <- app_assoc. reflexivity. }
      split.
      * destruct (net w1 (exchanges w1)) as [msg|r]; [apply X|].
        destruct (is_error_status r); [apply X|]. destruct (body_json r); apply X.
      * constructor; [exact I|]. constructor; [|constructor].
        cbn [request_for p_file_base64 p_number p_text].
        split; [|split; reflexivity]. now exists raw, w1.
  - rewrite send_read_fails with (e := e) (w1 := w1) by exact R.
    exists [ReadImage src]. cbn [snd]. split; [exact T | repeat constructor].
Qed.

End PostedImage.
